(** * pydid.did_url: the DID URL value object

    A shallow embedding of [src/pydid/did_url.py] and of the parts of the
    Python runtime it calls ([str] methods, [urllib.parse]), followed by the
    properties of parsing, validation and reconstruction.

    Conventions.
    - A Python [str] is a [string]; a text outside ASCII is held as the bytes
      of its UTF-8 encoding, so that searching, splitting and percent-coding
      act on it as they do in Python.
    - A call that can raise returns a [result]: the value, or the exception.
    - A Python object whose type the code leaves open (the constructor's
      argument, the [fragment] of [unparse]) is a [pyobj].
    - [urllib.parse] is the one of CPython 3.10; the NFKC table of
      [unicodedata] and the two patterns of [pydid.common] are parameters
      of the definitions. *)

From Stdlib Require Import Bool Arith NArith ZArith Lia List.
From Stdlib Require Import Ascii String DecimalString.
Import ListNotations.

Open Scope string_scope.
Open Scope bool_scope.

(** ** Exceptions and results *)

(** The exception classes that reach this module.  [InvalidDIDUrlError]
    derives from [DIDError] and from [ValueError]. *)
Inductive exn : Type :=
| InvalidDIDUrlError (msg : string)
| ValueError (msg : string)
| TypeError (msg : string).

(** [isinstance(e, ValueError)], the test of an [except ValueError] clause. *)
Definition isinstance_ValueError (e : exn) : bool :=
  match e with
  | InvalidDIDUrlError _ => true
  | ValueError _ => true
  | TypeError _ => false
  end.

Inductive result (A : Type) : Type :=
| Ok (a : A)
| Raise (e : exn).
Arguments Ok {A} a.
Arguments Raise {A} e.

Definition bind {A B : Type} (r : result A) (k : A -> result B) : result B :=
  match r with
  | Ok a => k a
  | Raise e => Raise e
  end.

Notation "'let*' x ':=' r 'in' k" := (bind r (fun x => k))
  (at level 10, x pattern, r at level 100, k at level 200).

(** ** Python objects *)

Inductive pyobj : Type :=
| PyNone
| PyStr (s : string)
| PyInt (n : Z).

(** [str(int)]: decimal digits, with a leading minus sign below zero. *)
Definition str_of_int (n : Z) : string := NilZero.string_of_int (Z.to_int n).

(** [str(o)]. *)
Definition py_str (o : pyobj) : string :=
  match o with
  | PyNone => "None"
  | PyStr s => s
  | PyInt n => str_of_int n
  end.

(** Truth value of a string: empty is false. *)
Definition str_truthy (s : string) : bool :=
  match s with
  | EmptyString => false
  | String _ _ => true
  end.

(** Truth value of an object, as tested by [if o:]. *)
Definition truthy (o : pyobj) : bool :=
  match o with
  | PyNone => false
  | PyStr s => str_truthy s
  | PyInt n => negb (Z.eqb n 0)
  end.

(** Truth value of an [Optional[str]]. *)
Definition opt_truthy (o : option string) : bool :=
  match o with
  | None => false
  | Some s => str_truthy s
  end.

(** [s or None]. *)
Definition or_None (s : string) : option string :=
  if str_truthy s then Some s else None.

(** An [Optional[str]] seen as an object. *)
Definition pyobj_of_opt (o : option string) : pyobj :=
  match o with
  | None => PyNone
  | Some s => PyStr s
  end.

(** ** Methods of [str] *)

Module str.

(** [c in s] for a single character [c]. *)
Fixpoint has_char (c : ascii) (s : string) : bool :=
  match s with
  | EmptyString => false
  | String a s' => Ascii.eqb a c || has_char c s'
  end.

(** [sub in s]. *)
Fixpoint contains (sub s : string) : bool :=
  prefix sub s ||
  match s with
  | EmptyString => false
  | String _ s' => contains sub s'
  end.

(** [s.startswith(p)]. *)
Definition startswith (p s : string) : bool := prefix p s.

(** [s.endswith(p)]: [p] is the text of [s] from some position on. *)
Fixpoint endswith (p s : string) : bool :=
  String.eqb s p ||
  match s with
  | EmptyString => false
  | String _ s' => endswith p s'
  end.

(** [s.replace(c, "")] for a single character [c]. *)
Fixpoint remove_char (c : ascii) (s : string) : string :=
  match s with
  | EmptyString => EmptyString
  | String a s' =>
      if Ascii.eqb a c then remove_char c s' else String a (remove_char c s')
  end.

(** [s.replace(c, d)] for single characters. *)
Fixpoint replace_char (c d : ascii) (s : string) : string :=
  match s with
  | EmptyString => EmptyString
  | String a s' =>
      String (if Ascii.eqb a c then d else a) (replace_char c d s')
  end.

(** [s.lstrip(chars)], the set [chars] given by its membership test. *)
Fixpoint lstrip (chars : ascii -> bool) (s : string) : string :=
  match s with
  | EmptyString => EmptyString
  | String a s' => if chars a then lstrip chars s' else s
  end.

(** [s.split(c, 1)] for a single character [c]: the text before the first
    [c] and the text after it, or [None] when [c] does not occur (the
    list then has the one element [s]). *)
Fixpoint split1 (c : ascii) (s : string) : option (string * string) :=
  match s with
  | EmptyString => None
  | String a s' =>
      if Ascii.eqb a c then Some (EmptyString, s')
      else match split1 c s' with
           | Some (l, r) => Some (String a l, r)
           | None => None
           end
  end.

(** The scan of [s.split(sep)]: [skip] characters of a separator already
    recognised remain to be passed over, [cur] is the piece being
    collected.  Occurrences are taken from left to right and do not
    overlap. *)
Fixpoint split_scan (sep s : string) (skip : nat) (cur : string)
  : list string :=
  match s with
  | EmptyString => [cur]
  | String a s' =>
      match skip with
      | S k => split_scan sep s' k cur
      | O =>
          if prefix sep s
          then cur :: split_scan sep s' (String.length sep - 1) EmptyString
          else split_scan sep s' 0 (cur ++ String a EmptyString)
      end
  end.

(** [s.split(sep)]; an empty separator is refused. *)
Definition split (sep s : string) : result (list string) :=
  match sep with
  | EmptyString => Raise (ValueError "empty separator")
  | String _ _ => Ok (split_scan sep s 0 EmptyString)
  end.

(** [s.split(c)] for a single character [c]. *)
Fixpoint split_char (c : ascii) (s : string) : list string :=
  match s with
  | EmptyString => [EmptyString]
  | String a s' =>
      if Ascii.eqb a c then EmptyString :: split_char c s'
      else match split_char c s' with
           | p :: ps => String a p :: ps
           | [] => [String a EmptyString]
           end
  end.

(** [sep.join(l)]. *)
Definition join (sep : string) (l : list string) : string := concat sep l.

End str.

(** Unpacking a list into two names: [_, b = l]. *)
Definition unpack2 (l : list string) : result (string * string) :=
  match l with
  | [a; b] => Ok (a, b)
  | [] => Raise (ValueError "not enough values to unpack (expected 2, got 0)")
  | [_] => Raise (ValueError "not enough values to unpack (expected 2, got 1)")
  | _ => Raise (ValueError "too many values to unpack (expected 2)")
  end.


(** ** Character classes *)

(** [lo <= c <= hi] on character codes. *)
Definition in_range (lo hi c : ascii) : bool :=
  (N_of_ascii lo <=? N_of_ascii c)%N && (N_of_ascii c <=? N_of_ascii hi)%N.

Definition is_lower (c : ascii) : bool := in_range "a" "z" c.
Definition is_upper (c : ascii) : bool := in_range "A" "Z" c.
Definition is_digit (c : ascii) : bool := in_range "0" "9" c.
Definition is_alnum (c : ascii) : bool := is_lower c || is_upper c || is_digit c.

(** [c.isascii()]. *)
Definition is_ascii (c : ascii) : bool := (N_of_ascii c <? 128)%N.

(** [c in chars] for a character set written as a string. *)
Definition char_in (chars : string) (c : ascii) : bool := str.has_char c chars.

(** Every character of [s] passes [p]. *)
Fixpoint all_chars (p : ascii -> bool) (s : string) : bool :=
  match s with
  | EmptyString => true
  | String a s' => p a && all_chars p s'
  end.

(** The longest prefix of [s] whose characters pass [p], and what follows. *)
Fixpoint span (p : ascii -> bool) (s : string) : string * string :=
  match s with
  | EmptyString => (EmptyString, EmptyString)
  | String a s' =>
      if p a then let (l, r) := span p s' in (String a l, r)
      else (EmptyString, s)
  end.

(** [s[n:]]. *)
Fixpoint drop (n : nat) (s : string) : string :=
  match n, s with
  | O, _ => s
  | S _, EmptyString => EmptyString
  | S k, String _ s' => drop k s'
  end.

(** ASCII lower case of one character and of a string ([s.lower()] on ASCII
    text). *)
Definition lower_char (c : ascii) : ascii :=
  if is_upper c then ascii_of_N (N_of_ascii c + 32) else c.

Fixpoint lower (s : string) : string :=
  match s with
  | EmptyString => EmptyString
  | String a s' => String (lower_char a) (lower s')
  end.

(** ** pydid.common: the two patterns *)

Module common.

(** Characters of a DID method name: lowercase letters and digits. *)
Definition is_method_char (c : ascii) : bool := is_lower c || is_digit c.

(** Characters of a method-specific identifier: letters, digits and
    [.], [-], [_], [:]. *)
Definition is_idchar (c : ascii) : bool := is_alnum c || char_in ".-_:" c.

(** Modelled from the spec: [DID_URL_DID_PART_PATTERN] is defined in
    pydid/common.py, which is not part of the sources.  The spec gives the
    grammar [did:<method>:<method-specific-id>], anchored at the start of
    the string, the method made of lowercase letters and digits, the
    identifier of letters, digits, [.], [-], [_] and [:], matched greedily.
    The function returns group 1 of the match, the DID text, or [None]
    when the pattern does not match. *)
Definition DID_URL_DID_PART_PATTERN (url : string) : option string :=
  if prefix "did:" url then
    let (method, after_method) := span is_method_char (drop 4 url) in
    match method, after_method with
    | String _ _, String c after_colon =>
        if Ascii.eqb c ":" then
          let (id, _) := span is_idchar after_colon in
          match id with
          | String _ _ => Some ("did:" ++ method ++ ":" ++ id)
          | EmptyString => None
          end
        else None
    | _, _ => None
    end
  else None.

(** Modelled from the spec: [DID_URL_RELATIVE_FRONT] is defined in
    pydid/common.py, which is not part of the sources.  The spec requires
    the string to begin with one of [/], [?], [#].  The function tells
    whether the pattern matches. *)
Definition DID_URL_RELATIVE_FRONT (url : string) : bool :=
  match url with
  | EmptyString => false
  | String c _ => char_in "/?#" c
  end.

End common.

(** NFKC normalisation of ASCII text, which it leaves unchanged.  It stands
    for [unicodedata.normalize] where the definitions are evaluated on ASCII
    inputs. *)
Definition NFKC_ascii (s : string) : string := s.

(** ** urllib.parse *)

Module SplitResult.
Record t : Type := mk {
  scheme : string;
  netloc : string;
  path : string;
  query : string;
  fragment : string
}.
End SplitResult.

Module ParseResult.
Record t : Type := mk {
  scheme : string;
  netloc : string;
  path : string;
  params : string;
  query : string;
  fragment : string
}.
End ParseResult.

(** A [dict] with string keys and values, in insertion order. *)
Definition dict : Type := list (string * string).

(** [d[k] = v]: the value of an existing key is replaced in place, a new key
    goes to the end. *)
Fixpoint dict_set (d : dict) (k v : string) : dict :=
  match d with
  | [] => [(k, v)]
  | (k', v') :: d' =>
      if String.eqb k' k then (k', v) :: d' else (k', v') :: dict_set d' k v
  end.

(** [dict(pairs)]. *)
Definition dict_of_pairs (pairs : list (string * string)) : dict :=
  fold_left (fun d kv => dict_set d (fst kv) (snd kv)) pairs [].

(** Truth value of a list or dict: empty is false. *)
Definition nonempty {A : Type} (l : list A) : bool :=
  match l with
  | [] => false
  | _ :: _ => true
  end.

(** [_WHATWG_C0_CONTROL_OR_SPACE]: the codes 0 to 32. *)
Definition is_c0_control_or_space (c : ascii) : bool := (N_of_ascii c <=? 32)%N.

(** [_UNSAFE_URL_BYTES_TO_REMOVE]: tab, carriage return, line feed. *)
Definition _UNSAFE_URL_BYTES_TO_REMOVE : list ascii :=
  ["009"%char; "013"%char; "010"%char].

(** [for b in _UNSAFE_URL_BYTES_TO_REMOVE: url = url.replace(b, "")]. *)
Definition remove_unsafe (url : string) : string :=
  fold_left (fun u b => str.remove_char b u) _UNSAFE_URL_BYTES_TO_REMOVE url.

(** [scheme_chars]: letters, digits and [+], [-], [.]. *)
Definition is_scheme_char (c : ascii) : bool := is_alnum c || char_in "+-." c.

(** [uses_params]. *)
Definition uses_params : list string :=
  [""; "ftp"; "hdl"; "prospero"; "http"; "imap"; "https"; "shttp"; "rtsp";
   "rtspu"; "sip"; "sips"; "mms"; "sftp"; "tel"].

(** The scheme step of [urlsplit]: when a colon occurs after the first
    position and only scheme characters precede it, they are the scheme, in
    lower case, and the text after the colon goes on. *)
Definition split_scheme (url : string) : string * string :=
  match str.split1 ":" url with
  | Some (before, after) =>
      if str_truthy before && all_chars is_scheme_char before
      then (lower before, after)
      else (EmptyString, url)
  | None => (EmptyString, url)
  end.

(** [_splitnetloc(url, 2)]: the network location runs from position 2 to the
    first of [/], [?], [#]. *)
Definition _splitnetloc (url : string) : string * string :=
  span (fun c => negb (char_in "/?#" c)) (drop 2 url).

(** [url.split(c, 1)] unpacked into two names when [c in url]; otherwise the
    second name keeps the empty string. *)
Definition split_off (c : ascii) (url : string) : string * string :=
  match str.split1 c url with
  | Some (before, after) => (before, after)
  | None => (url, EmptyString)
  end.

(** *** Percent-coding *)

(** Value of a hexadecimal digit, in either case. *)
Definition hex_val (c : ascii) : option N :=
  if is_digit c then Some (N_of_ascii c - 48)%N
  else if in_range "a" "f" c then Some (N_of_ascii c - 87)%N
  else if in_range "A" "F" c then Some (N_of_ascii c - 55)%N
  else None.

(** The upper-case hexadecimal digit of a value below 16. *)
Definition hex_upper (n : N) : ascii :=
  if (n <? 10)%N then ascii_of_N (48 + n) else ascii_of_N (55 + n).

(** ['%{:02X}'.format(c)]. *)
Definition percent_byte (c : ascii) : string :=
  String "%" (String (hex_upper (N_of_ascii c / 16))
             (String (hex_upper (N_of_ascii c mod 16)) EmptyString)).

(** [_ALWAYS_SAFE]: letters, digits and [_], [.], [-], [~]. *)
Definition is_always_safe (c : ascii) : bool := is_alnum c || char_in "_.-~" c.

(** [quote(s, safe)]: every byte of the UTF-8 form of [s] that is neither
    always safe nor in [safe] becomes [%XX]. *)
Fixpoint quote (s : string) (safe : string) : string :=
  match s with
  | EmptyString => EmptyString
  | String c s' =>
      (if is_always_safe c || char_in safe c
       then String c EmptyString else percent_byte c) ++ quote s' safe
  end.

(** [quote_plus(s)], with its default [safe='']. *)
Definition quote_plus (s : string) : string :=
  if negb (str.has_char " " s) then quote s ""
  else str.replace_char " " "+" (quote s " ").

(** [urlencode(query)] for a dict of strings. *)
Definition urlencode (query : dict) : string :=
  str.join "&" (map (fun kv => quote_plus (fst kv) ++ "=" ++ quote_plus (snd kv)) query).

(** [unquote_to_bytes(s)]: a [%] followed by two hexadecimal digits is the
    byte they write; any other [%] stays. *)
Fixpoint unquote_to_bytes (s : string) : string :=
  match s with
  | EmptyString => EmptyString
  | String c s' =>
      if Ascii.eqb c "%" then
        match s' with
        | String h (String l rest) =>
            match hex_val h, hex_val l with
            | Some a, Some b =>
                String (ascii_of_N (16 * a + b)) (unquote_to_bytes rest)
            | _, _ => String c (unquote_to_bytes s')
            end
        | _ => String c (unquote_to_bytes s')
        end
      else String c (unquote_to_bytes s')
  end.

(** State of the UTF-8 decoder: between characters, or inside one, with the
    number of continuation bytes still due, the range allowed to the next
    one and the bytes read so far. *)
Inductive utf8_state : Type :=
| Utf8Start
| Utf8Cont (need : nat) (lo hi : N) (pending : string).

(** U+FFFD, REPLACEMENT CHARACTER, in UTF-8. *)
Definition REPLACEMENT : string :=
  String "239" (String "191" (String "189" EmptyString)).

(** What a byte read between characters does: it is a character of its own,
    it opens a sequence, or it is invalid there. *)
Definition utf8_lead (b : ascii) : string + utf8_state :=
  let n := N_of_ascii b in
  let one := String b EmptyString in
  if (n <? 128)%N then inl one
  else if (194 <=? n)%N && (n <=? 223)%N then inr (Utf8Cont 1 128 191 one)
  else if (n =? 224)%N then inr (Utf8Cont 2 160 191 one)
  else if (225 <=? n)%N && (n <=? 236)%N then inr (Utf8Cont 2 128 191 one)
  else if (n =? 237)%N then inr (Utf8Cont 2 128 159 one)
  else if (238 <=? n)%N && (n <=? 239)%N then inr (Utf8Cont 2 128 191 one)
  else if (n =? 240)%N then inr (Utf8Cont 3 144 191 one)
  else if (241 <=? n)%N && (n <=? 243)%N then inr (Utf8Cont 3 128 191 one)
  else if (n =? 244)%N then inr (Utf8Cont 3 128 143 one)
  else inl REPLACEMENT.

(** [bs.decode('utf-8', 'replace')], the decoded text again held in UTF-8:
    well-formed sequences pass, each ill-formed one becomes U+FFFD. *)
Fixpoint utf8_decode_replace (st : utf8_state) (bs : string) : string :=
  match bs with
  | EmptyString =>
      match st with
      | Utf8Start => EmptyString
      | Utf8Cont _ _ _ _ => REPLACEMENT
      end
  | String b bs' =>
      let fresh :=
        match utf8_lead b with
        | inl out => out ++ utf8_decode_replace Utf8Start bs'
        | inr st' => utf8_decode_replace st' bs'
        end in
      match st with
      | Utf8Start => fresh
      | Utf8Cont need lo hi pending =>
          let n := N_of_ascii b in
          if (lo <=? n)%N && (n <=? hi)%N then
            match need with
            | S (S k) =>
                utf8_decode_replace
                  (Utf8Cont (S k) 128 191 (pending ++ String b EmptyString)) bs'
            | _ =>
                pending ++ String b (utf8_decode_replace Utf8Start bs')
            end
          else REPLACEMENT ++ fresh
      end
  end.

(** The loop of [unquote] over the runs of ASCII characters: a run is
    percent-decoded and read as UTF-8, the characters between runs pass.
    [run] is the ASCII run being collected. *)
Fixpoint unquote_runs (s : string) (run : string) : string :=
  match s with
  | EmptyString => utf8_decode_replace Utf8Start (unquote_to_bytes run)
  | String c s' =>
      if is_ascii c then unquote_runs s' (run ++ String c EmptyString)
      else utf8_decode_replace Utf8Start (unquote_to_bytes run)
           ++ String c (unquote_runs s' EmptyString)
  end.

(** [unquote(s)], with its defaults [encoding='utf-8', errors='replace']. *)
Definition unquote (s : string) : string :=
  if negb (str.has_char "%" s) then s else unquote_runs s EmptyString.

(** One field of [parse_qsl]: nothing for an empty field, for a field
    without [=] and for a blank value; otherwise the decoded pair. *)
Definition parse_qsl_field (name_value : string) : list (string * string) :=
  if negb (str_truthy name_value) then []
  else match str.split1 "=" name_value with
       | None => []
       | Some (name, value) =>
           if str_truthy value
           then [(unquote (str.replace_char "+" " " name),
                  unquote (str.replace_char "+" " " value))]
           else []
       end.

(** [parse_qsl(qs)], with its defaults [keep_blank_values=False],
    [strict_parsing=False], [separator='&']. *)
Definition parse_qsl (qs : string) : list (string * string) :=
  flat_map parse_qsl_field (str.split_char "&" qs).

(** [s.rsplit(c, 1)] for a single character [c], or [None] when [c] does not
    occur. *)
Fixpoint rsplit1 (c : ascii) (s : string) : option (string * string) :=
  match s with
  | EmptyString => None
  | String a s' =>
      match rsplit1 c s' with
      | Some (l, r) => Some (String a l, r)
      | None => if Ascii.eqb a c then Some (EmptyString, s') else None
      end
  end.

(** [_splitparams(url)], called when [';' in url]: the parameters start at
    the first [;] of the last path segment. *)
Definition _splitparams (url : string) : string * string :=
  match rsplit1 "/" url with
  | Some (before, last) =>
      match str.split1 ";" last with
      | Some (l, r) => (before ++ "/" ++ l, r)
      | None => (url, EmptyString)
      end
  | None => split_off ";" url
  end.

(** ** The DID URL object *)

(** A [DIDUrl] is a [str] carrying the parsed attributes: [text] is the
    string value of the object itself. *)
Record DIDUrl : Type := mkDIDUrl {
  text : string;
  did : option string;
  path : option string;
  query : option dict;
  fragment : option string
}.

(** The value of an [Optional[str]] known to be present. *)
Definition opt_get (o : option string) : string :=
  match o with
  | Some s => s
  | None => EmptyString
  end.

Section DIDUrl.

(** The patterns imported from [pydid.common]: the first gives group 1 of
    its match, the second tells whether it matches. *)
Variable DID_URL_DID_PART_PATTERN : string -> option string.
Variable DID_URL_RELATIVE_FRONT : string -> bool.

(** [unicodedata.normalize('NFKC', s)], a table of the Unicode database. *)
Variable unicodedata_normalize_NFKC : string -> string.

(** [_checknetloc(netloc)]. *)
Definition _checknetloc (netloc : string) : result unit :=
  if negb (str_truthy netloc) || all_chars is_ascii netloc then Ok tt
  else
    let n := str.remove_char "@" netloc in
    let n := str.remove_char ":" n in
    let n := str.remove_char "#" n in
    let n := str.remove_char "?" n in
    let netloc2 := unicodedata_normalize_NFKC n in
    if String.eqb n netloc2 then Ok tt
    else if existsb (fun c => str.has_char c netloc2)
                    ["/"; "?"; "#"; "@"; ":"]%char
    then Raise (ValueError ("netloc '" ++ netloc ++
                  "' contains invalid characters under NFKC normalization"))
    else Ok tt.

(** [urlsplit(url)] of CPython 3.10, with its defaults [scheme=''],
    [allow_fragments=True].  Its cache of results is left out. *)
Definition urlsplit (url : string) : result SplitResult.t :=
  let url := str.lstrip is_c0_control_or_space url in
  let url := remove_unsafe url in
  let '(scheme, url) := split_scheme url in
  let* (netloc, url) :=
    if str.startswith "//" url then
      let '(netloc, url) := _splitnetloc url in
      if (str.has_char "[" netloc && negb (str.has_char "]" netloc))
         || (str.has_char "]" netloc && negb (str.has_char "[" netloc))
      then Raise (ValueError "Invalid IPv6 URL")
      else Ok (netloc, url)
    else Ok (EmptyString, url) in
  let '(url, fragment) := split_off "#" url in
  let '(url, query) := split_off "?" url in
  let* _ := _checknetloc netloc in
  Ok (SplitResult.mk scheme netloc url query fragment).

(** [urlparse(url)]. *)
Definition urlparse (url : string) : result ParseResult.t :=
  let* splitresult := urlsplit url in
  let '(SplitResult.mk scheme netloc url query fragment) := splitresult in
  let '(url, params) :=
    if existsb (String.eqb scheme) uses_params && str.has_char ";" url
    then _splitparams url
    else (url, EmptyString) in
  Ok (ParseResult.mk scheme netloc url params query fragment).

(** [DIDUrl.__init__]: parse DID URL from string.  The object is built by
    [str.__new__] from the same argument; matching the pattern against
    anything but a [str] raises [TypeError]. *)
Definition __init__ (url : pyobj) : result DIDUrl :=
  match url with
  | PyStr url =>
      let matches := DID_URL_DID_PART_PATTERN url in
      let* (self_did, url_component) :=
        match matches with
        | Some group1 =>
            let* pieces := str.split group1 url in
            let* (_, url_component) := unpack2 pieces in
            Ok (Some group1, url_component)
        | None =>
            let relative_matches := DID_URL_RELATIVE_FRONT url in
            if negb relative_matches
            then Raise (InvalidDIDUrlError
                          (url ++ " is not a valid absolute or relative DID URL"))
            else Ok (None, url)
        end in
      let* parts := urlparse url_component in
      Ok {| text := url;
            did := self_did;
            path := or_None (ParseResult.path parts);
            query := if str_truthy (ParseResult.query parts)
                     then Some (dict_of_pairs (parse_qsl (ParseResult.query parts)))
                     else None;
            fragment := or_None (ParseResult.fragment parts) |}
  | _ => Raise (TypeError "expected string or bytes-like object")
  end.

(** [DIDUrl.parse]. *)
Definition parse (url : pyobj) : result DIDUrl := __init__ url.

(** The string that [DIDUrl.unparse] composes before it builds the object:
    the value of [value] at [return cls(value)]. *)
Definition unparse_value (did : string) (path : option string)
  (query : option dict) (fragment : pyobj) : string :=
  let value := did in
  let path :=
    if opt_truthy path && negb (str.startswith "/" (opt_get path))
    then Some ("/" ++ opt_get path) else path in
  let value := if opt_truthy path then value ++ opt_get path else value in
  let value :=
    match query with
    | Some q => if nonempty q then value ++ "?" ++ urlencode q else value
    | None => value
    end in
  let fragment := if truthy fragment then Some (py_str fragment) else None in
  let value :=
    if opt_truthy fragment then value ++ "#" ++ opt_get fragment else value in
  value.

(** [DIDUrl.unparse]: form a DID URL from parts. *)
Definition unparse (did : string) (path : option string)
  (query : option dict) (fragment : pyobj) : result DIDUrl :=
  __init__ (PyStr (unparse_value did path query fragment)).

(** [DIDUrl.as_absolute]: make a relative DIDUrl absolute. *)
Definition as_absolute (self : DIDUrl) (did : string) : result DIDUrl :=
  unparse did (path self) (query self) (pyobj_of_opt (fragment self)).

(** [DIDUrl.validate]. *)
Definition validate (url : pyobj) : result DIDUrl := parse url.

(** [DIDUrl.is_valid]: [False] on a [ValueError], [True] when nothing is
    raised; any other exception leaves the function. *)
Definition is_valid (url : pyobj) : result bool :=
  match validate url with
  | Raise e => if isinstance_ValueError e then Ok false else Raise e
  | Ok _ => Ok true
  end.

End DIDUrl.

(** ** The class with the patterns of [pydid.common] *)

Module pydid.

Definition __init__ : pyobj -> result DIDUrl :=
  __init__ common.DID_URL_DID_PART_PATTERN common.DID_URL_RELATIVE_FRONT NFKC_ascii.

Definition parse : pyobj -> result DIDUrl :=
  parse common.DID_URL_DID_PART_PATTERN common.DID_URL_RELATIVE_FRONT NFKC_ascii.

Definition unparse
  : string -> option string -> option dict -> pyobj -> result DIDUrl :=
  unparse common.DID_URL_DID_PART_PATTERN common.DID_URL_RELATIVE_FRONT NFKC_ascii.

Definition as_absolute : DIDUrl -> string -> result DIDUrl :=
  as_absolute common.DID_URL_DID_PART_PATTERN common.DID_URL_RELATIVE_FRONT NFKC_ascii.

Definition is_valid : pyobj -> result bool :=
  is_valid common.DID_URL_DID_PART_PATTERN common.DID_URL_RELATIVE_FRONT NFKC_ascii.

End pydid.

(** ** The segments of a URL *)

(** The text after the first [#] of [url], empty when there is none. *)
Definition fragment_segment (url : string) : string :=
  snd (split_off "#" url).

(** The text between the first [?] and the first [#] of [url], empty when no
    [?] comes before the first [#]. *)
Definition query_segment (url : string) : string :=
  snd (split_off "?" (fst (split_off "#" url))).

(** [sub] occurs in [s] at position [p]. *)
Definition occurs_at (sub s : string) (p : nat) : Prop :=
  substring p (String.length sub) s = sub.

(** The text before the first [?] and the first [#] of [url]. *)
Definition path_segment (url : string) : string :=
  fst (split_off "?" (fst (split_off "#" url))).

(** [url] is empty or begins with one of [/], [?], [#]. *)
Definition fronted (url : string) : bool :=
  match url with
  | EmptyString => true
  | String c _ => char_in "/?#" c
  end.

(** The path that [unparse] writes: [path] with a leading [/] when it has
    none, nothing when [path] is false. *)
Definition unparse_path (path : option string) : string :=
  if opt_truthy path
  then (if str.startswith "/" (opt_get path) then opt_get path
        else "/" ++ opt_get path)
  else EmptyString.

(** The query that [unparse] writes: [?] and the encoded mapping, nothing
    when [query] is false. *)
Definition unparse_query (query : option dict) : string :=
  match query with
  | Some q => if nonempty q then "?" ++ urlencode q else EmptyString
  | None => EmptyString
  end.

(** The fragment that [unparse] writes: [#] and the text of the object,
    nothing when [fragment] is false. *)
Definition unparse_fragment (fragment : pyobj) : string :=
  if truthy fragment then "#" ++ py_str fragment else EmptyString.

(** The characters that [quote_plus] writes. *)
Definition is_quoted_char (c : ascii) : bool :=
  is_always_safe c || char_in "%+" c.

(** A text is empty or begins with [?] or [#]. *)
Definition after_path (r : string) : Prop :=
  r = "" \/ (exists r', r = String "?" r') \/ (exists r', r = String "#" r').

(** ** The JSON schema hook *)

(** JSON values, as far as the hook writes them. *)
#[warnings="-register-all"]
Inductive json : Type :=
| JString (s : string)
| JArray (items : list json)
| JObject (entries : list (string * json)).

(** [JsonSchemaValue]: a dict from strings to JSON values. *)
Definition JsonSchemaValue : Type := list (string * json).

(** [d[k] = v] on such a dict. *)
Fixpoint json_set (d : JsonSchemaValue) (k : string) (v : json)
  : JsonSchemaValue :=
  match d with
  | [] => [(k, v)]
  | (k', v') :: d' =>
      if String.eqb k' k then (k', v) :: d' else (k', v') :: json_set d' k v
  end.

(** [d.get(k)]. *)
Fixpoint json_get (d : JsonSchemaValue) (k : string) : option json :=
  match d with
  | [] => None
  | (k', v') :: d' => if String.eqb k' k then Some v' else json_get d' k
  end.

(** [DIDUrl.__get_pydantic_json_schema__]: update schema fields.  The
    handler is the one that pydantic passes; what it raises leaves the
    hook. *)
Definition __get_pydantic_json_schema__ {CoreSchema : Type}
  (core_schema : CoreSchema) (handler : CoreSchema -> result JsonSchemaValue)
  : result JsonSchemaValue :=
  let* json_schema := handler core_schema in
  let json_schema :=
    json_set json_schema "examples"
      (JArray [JString "did:example:123/some/path?query=test#fragment"]) in
  Ok json_schema.

(** * Properties *)

(** ** Strings *)

Lemma app_nil_r (s : string) : s ++ "" = s.
Proof. induction s as [|a s IH]; simpl; [reflexivity | now rewrite IH]. Qed.

Lemma app_assoc (s t u : string) : (s ++ t) ++ u = s ++ t ++ u.
Proof. induction s as [|a s IH]; simpl; [reflexivity | now rewrite IH]. Qed.

Lemma prefix_app (s t : string) : prefix s (s ++ t) = true.
Proof.
  induction s as [|a s IH]; simpl.
  - now destruct t.
  - destruct (ascii_dec a a) as [_|N]; [exact IH | now elim N].
Qed.

Lemma prefix_split (p s : string) :
  prefix p s = true -> exists r, s = p ++ r.
Proof.
  revert s; induction p as [|a p IH]; intros s H.
  - now exists s.
  - destruct s as [|b s]; simpl in H; [discriminate|].
    destruct (ascii_dec a b) as [->|_]; [|discriminate].
    destruct (IH _ H) as [r ->]. now exists r.
Qed.

Lemma contains_prefix (sub s : string) :
  prefix sub s = true -> str.contains sub s = true.
Proof. intros H. destruct s; simpl in *; now rewrite H. Qed.

Lemma contains_app (sub t : string) : str.contains sub (sub ++ t) = true.
Proof. apply contains_prefix, prefix_app. Qed.

Lemma endswith_refl (p : string) : str.endswith p p = true.
Proof. destruct p; simpl; [reflexivity | now rewrite Ascii.eqb_refl, String.eqb_refl]. Qed.

Lemma endswith_app (x p : string) : str.endswith p (x ++ p) = true.
Proof.
  induction x as [|a x IH]; simpl.
  - apply endswith_refl.
  - rewrite IH. apply orb_true_r.
Qed.

Lemma has_char_app (c : ascii) (s t : string) :
  str.has_char c (s ++ t) = str.has_char c s || str.has_char c t.
Proof.
  induction s as [|a s IH]; simpl; [reflexivity|].
  now rewrite IH, orb_assoc.
Qed.

Lemma all_chars_has_char (p : ascii -> bool) (c : ascii) (s : string) :
  all_chars p s = true -> p c = false -> str.has_char c s = false.
Proof.
  intros H Hc. induction s as [|a s IH]; simpl in *; [reflexivity|].
  apply andb_true_iff in H as [Ha Hs].
  destruct (Ascii.eqb_spec a c) as [->|_]; [congruence|].
  now apply IH.
Qed.

Lemma all_chars_get (p : ascii -> bool) (s : string) (i : nat) (c : ascii) :
  all_chars p s = true -> get i s = Some c -> p c = true.
Proof.
  revert i; induction s as [|a s IH]; intros i H G; simpl in *; [discriminate|].
  apply andb_true_iff in H as [Ha Hs].
  destruct i; [now injection G as <- | eauto].
Qed.

Lemma all_chars_app (p : ascii -> bool) (s t : string) :
  all_chars p (s ++ t) = all_chars p s && all_chars p t.
Proof.
  induction s as [|a s IH]; simpl; [reflexivity|].
  now rewrite IH, andb_assoc.
Qed.

Lemma all_chars_impl (p q : ascii -> bool) (s : string) :
  (forall c, p c = true -> q c = true) ->
  all_chars p s = true -> all_chars q s = true.
Proof.
  intros Hpq. induction s as [|a s IH]; simpl; [reflexivity|].
  intros H. apply andb_true_iff in H as [Ha Hs].
  now rewrite (Hpq _ Ha), IH.
Qed.

Lemma get_some (s : string) (i : nat) :
  i < String.length s -> exists c, get i s = Some c.
Proof.
  revert i; induction s as [|a s IH]; intros i H; simpl in *; [lia|].
  destruct i; [now exists a | apply IH; lia].
Qed.

Lemma split1_some (c : ascii) (s l r : string) :
  str.split1 c s = Some (l, r) ->
  s = l ++ String c r /\ str.has_char c l = false.
Proof.
  revert l; induction s as [|a s IH]; intros l H; simpl in H; [discriminate|].
  destruct (Ascii.eqb_spec a c) as [->|N].
  - injection H as <- <-. now split.
  - destruct (str.split1 c s) as [[l' r']|]; [|discriminate].
    injection H as <- <-. destruct (IH l' eq_refl) as [-> Hl]. split; [reflexivity|].
    simpl. destruct (Ascii.eqb_spec a c); [contradiction | exact Hl].
Qed.

Lemma split1_app (c : ascii) (pre s : string) :
  str.has_char c pre = false ->
  str.split1 c (pre ++ s) =
  match str.split1 c s with
  | Some (l, r) => Some (pre ++ l, r)
  | None => None
  end.
Proof.
  induction pre as [|a pre IH]; simpl; intros H.
  - now destruct (str.split1 c s) as [[l r]|].
  - apply orb_false_iff in H as [Ha Hp]. rewrite Ha, (IH Hp).
    now destruct (str.split1 c s) as [[l r]|].
Qed.

Lemma split_off_app (c : ascii) (pre s : string) :
  str.has_char c pre = false ->
  split_off c (pre ++ s) = (pre ++ fst (split_off c s), snd (split_off c s)).
Proof.
  intros H. unfold split_off. rewrite (split1_app _ _ _ H).
  now destruct (str.split1 c s) as [[l r]|].
Qed.

Lemma split1_remove (c x : ascii) (s : string) :
  x <> c ->
  str.split1 c (str.remove_char x s) =
  match str.split1 c s with
  | Some (l, r) => Some (str.remove_char x l, str.remove_char x r)
  | None => None
  end.
Proof.
  intros N. induction s as [|a s IH]; simpl; [reflexivity|].
  destruct (Ascii.eqb_spec a x) as [->|Nx].
  - destruct (Ascii.eqb_spec x c) as [E|_]; [contradiction|].
    rewrite IH. destruct (str.split1 c s) as [[l r]|]; simpl; [|reflexivity].
    now rewrite Ascii.eqb_refl.
  - simpl. destruct (Ascii.eqb_spec a c) as [->|Nc]; [reflexivity|].
    rewrite IH. destruct (str.split1 c s) as [[l r]|]; simpl; [|reflexivity].
    destruct (Ascii.eqb_spec a x); [contradiction | reflexivity].
Qed.

Lemma split_off_remove (c x : ascii) (s : string) :
  x <> c ->
  split_off c (str.remove_char x s) =
  (str.remove_char x (fst (split_off c s)), str.remove_char x (snd (split_off c s))).
Proof.
  intros N. unfold split_off. rewrite (split1_remove _ _ _ N).
  now destruct (str.split1 c s) as [[l r]|].
Qed.

Lemma lstrip_spec (p : ascii -> bool) (s : string) :
  exists pre, s = pre ++ str.lstrip p s /\ all_chars p pre = true.
Proof.
  induction s as [|a s [pre [E H]]]; simpl.
  - now exists "".
  - destruct (p a) eqn:Pa.
    + exists (String a pre). simpl. rewrite Pa, H. split; [now rewrite <- E | reflexivity].
    + now exists "".
Qed.

Lemma span_spec (p : ascii -> bool) (s l r : string) :
  span p s = (l, r) ->
  s = l ++ r /\ all_chars p l = true /\
  match r with
  | EmptyString => True
  | String c _ => p c = false
  end.
Proof.
  revert l; induction s as [|a s IH]; intros l H; simpl in H.
  - now injection H as <- <-.
  - destruct (p a) eqn:Pa.
    + destruct (span p s) as [l' r'] eqn:E. injection H as <- <-.
      destruct (IH l' eq_refl) as (-> & Hl & Hr).
      simpl. now rewrite Pa, Hl.
    + injection H as <- <-. simpl. now rewrite Pa.
Qed.

(** ** Splitting on a separator *)

Lemma split_scan_length (sep s : string) (skip : nat) (cur : string) :
  1 <= List.length (str.split_scan sep s skip cur).
Proof.
  revert skip cur; induction s as [|a s IH]; intros skip cur;
    cbn [str.split_scan]; [simpl; lia|].
  destruct skip; [|apply IH].
  destruct (prefix sep (String a s)); [simpl; lia | apply IH].
Qed.

(** Passing over the rest of a separator. *)
Lemma split_scan_skip (sep x s cur : string) :
  str.split_scan sep (x ++ s) (String.length x) cur = str.split_scan sep s 0 cur.
Proof.
  induction x as [|a x IH]; simpl; [|exact IH].
  destruct s; reflexivity.
Qed.

(** A separator at the front closes the current piece. *)
Lemma split_scan_front (sep s cur : string) :
  sep <> "" ->
  str.split_scan sep (sep ++ s) 0 cur = cur :: str.split_scan sep s 0 "".
Proof.
  intros N. destruct sep as [|a sep]; [contradiction|].
  change (String a sep ++ s) with (String a (sep ++ s)).
  cbn [str.split_scan].
  change (String a (sep ++ s)) with (String a sep ++ s).
  rewrite prefix_app.
  replace (String.length (String a sep) - 1) with (String.length sep)
    by (simpl; lia).
  now rewrite split_scan_skip.
Qed.

(** A scan that yields one piece met no separator. *)
Lemma split_scan_single (sep s cur x : string) :
  str.split_scan sep s 0 cur = [x] -> x = cur ++ s.
Proof.
  revert cur; induction s as [|a s IH]; intros cur H; cbn [str.split_scan] in H.
  - injection H as <-. now rewrite app_nil_r.
  - destruct (prefix sep (String a s)).
    + injection H as _ H.
      pose proof (split_scan_length sep s (String.length sep - 1) "") as L.
      rewrite H in L. simpl in L. lia.
    + rewrite (IH _ H). now rewrite app_assoc.
Qed.

(** A separator somewhere in the text gives two pieces at least. *)
Lemma split_scan_contains (sep s cur : string) :
  sep <> "" -> str.contains sep s = true ->
  2 <= List.length (str.split_scan sep s 0 cur).
Proof.
  intros N. revert cur; induction s as [|a s IH]; intros cur H.
  - destruct sep; [contradiction | discriminate].
  - simpl in H. cbn [str.split_scan].
    destruct (prefix sep (String a s)) eqn:E.
    + pose proof (split_scan_length sep s (String.length sep - 1) "").
      simpl. lia.
    + simpl in E. rewrite E in H. simpl in H. now apply IH.
Qed.

(** Splitting a text on a separator that it starts with: a first empty
    piece, then the pieces of what follows. *)
Lemma split_front (sep s : string) :
  sep <> "" ->
  str.split sep (sep ++ s) = Ok ("" :: str.split_scan sep s 0 "").
Proof.
  intros N. unfold str.split. rewrite (split_scan_front _ _ _ N).
  destruct sep; [contradiction | reflexivity].
Qed.

(** The two names unpacked from such a split are the empty string and the
    whole remainder. *)
Lemma split_unpack_front (sep s a b : string) (pieces : list string) :
  sep <> "" ->
  str.split sep (sep ++ s) = Ok pieces -> unpack2 pieces = Ok (a, b) ->
  a = "" /\ b = s.
Proof.
  intros N S U. rewrite (split_front _ _ N) in S. injection S as <-.
  destruct (str.split_scan sep s 0 "") as [|x [|y l]] eqn:E; simpl in U;
    try discriminate.
  injection U as <- <-. now rewrite (split_scan_single _ _ _ _ E).
Qed.

(** When the separator occurs again in the remainder, unpacking fails. *)
Lemma split_unpack_repeat (sep s : string) :
  sep <> "" -> str.contains sep s = true ->
  exists pieces,
    str.split sep (sep ++ s) = Ok pieces /\
    unpack2 pieces = Raise (ValueError "too many values to unpack (expected 2)").
Proof.
  intros N C. rewrite (split_front _ _ N). eexists; split; [reflexivity|].
  pose proof (split_scan_contains sep s "" N C) as L.
  destruct (str.split_scan sep s 0 "") as [|x [|y l]]; simpl in *; try lia.
  reflexivity.
Qed.

(** ** Occurrences *)

Lemma substring_app_r (p n : nat) (s t : string) :
  String.length s <= p ->
  substring p n (s ++ t) = substring (p - String.length s) n t.
Proof.
  revert p; induction s as [|a s IH]; intros p H; simpl in *.
  - now rewrite Nat.sub_0_r.
  - destruct p; [lia|]. apply IH. lia.
Qed.

Lemma contains_occurs (sub s : string) (p : nat) :
  occurs_at sub s p -> str.contains sub s = true.
Proof.
  unfold occurs_at. revert p; induction s as [|a s IH]; intros p H.
  - destruct p; simpl in H; destruct sub; simpl in *; try reflexivity; discriminate.
  - destruct p.
    + apply contains_prefix, prefix_correct. exact H.
    + simpl in H. cbn [str.contains]. rewrite (IH _ H). apply orb_true_r.
Qed.

(** ** Segments *)

Lemma fragment_segment_app (pre s : string) :
  str.has_char "#" pre = false ->
  fragment_segment (pre ++ s) = fragment_segment s.
Proof. intros H. unfold fragment_segment. now rewrite split_off_app. Qed.

Lemma query_segment_app (pre s : string) :
  str.has_char "#" pre = false -> str.has_char "?" pre = false ->
  query_segment (pre ++ s) = query_segment s.
Proof.
  intros H Q. unfold query_segment. rewrite (split_off_app "#" _ _ H).
  cbn [fst]. now rewrite (split_off_app "?" _ _ Q).
Qed.

Lemma fragment_segment_remove (x : ascii) (s : string) :
  x <> "#"%char ->
  fragment_segment (str.remove_char x s) = str.remove_char x (fragment_segment s).
Proof. intros N. unfold fragment_segment. now rewrite split_off_remove. Qed.

Lemma query_segment_remove (x : ascii) (s : string) :
  x <> "#"%char -> x <> "?"%char ->
  query_segment (str.remove_char x s) = str.remove_char x (query_segment s).
Proof.
  intros N Q. unfold query_segment. rewrite (split_off_remove "#" _ _ N).
  cbn [fst]. now rewrite (split_off_remove "?" _ _ Q).
Qed.

Lemma fragment_segment_remove_unsafe (s : string) :
  fragment_segment (remove_unsafe s) = remove_unsafe (fragment_segment s).
Proof.
  unfold remove_unsafe, _UNSAFE_URL_BYTES_TO_REMOVE. cbn [fold_left].
  now rewrite !fragment_segment_remove by discriminate.
Qed.

Lemma query_segment_remove_unsafe (s : string) :
  query_segment (remove_unsafe s) = remove_unsafe (query_segment s).
Proof.
  unfold remove_unsafe, _UNSAFE_URL_BYTES_TO_REMOVE. cbn [fold_left].
  now rewrite !query_segment_remove by discriminate.
Qed.

(** A prefix without [#] and [?] changes neither segment. *)
Lemma segments_app (pre s : string) :
  str.has_char "#" pre = false -> str.has_char "?" pre = false ->
  fragment_segment (pre ++ s) = fragment_segment s /\
  query_segment (pre ++ s) = query_segment s.
Proof.
  intros H Q. split; [now apply fragment_segment_app | now apply query_segment_app].
Qed.

Lemma segments_lstrip (s : string) :
  fragment_segment (str.lstrip is_c0_control_or_space s) = fragment_segment s /\
  query_segment (str.lstrip is_c0_control_or_space s) = query_segment s.
Proof.
  destruct (lstrip_spec is_c0_control_or_space s) as (pre & E & H).
  rewrite E at 2 4.
  destruct (segments_app pre (str.lstrip is_c0_control_or_space s)) as [F Q];
    [eapply all_chars_has_char; eauto..|now rewrite F, Q].
Qed.

Lemma segments_split_scheme (u sch u' : string) :
  split_scheme u = (sch, u') ->
  fragment_segment u' = fragment_segment u /\ query_segment u' = query_segment u.
Proof.
  unfold split_scheme. destruct (str.split1 ":" u) as [[before after]|] eqn:E.
  - destruct (str_truthy before && all_chars is_scheme_char before) eqn:C;
      intros H; injection H as <- <-; [|now split].
    apply andb_true_iff in C as [_ C].
    destruct (split1_some _ _ _ _ E) as [-> _].
    change (before ++ String ":" after) with (before ++ ":" ++ after).
    rewrite <- app_assoc.
    destruct (segments_app (before ++ ":") after) as [F Q];
      [rewrite has_char_app, (all_chars_has_char _ _ _ C); reflexivity..|].
    now rewrite F, Q.
  - intros H; injection H as <- <-. now split.
Qed.

Lemma segments_splitnetloc (u n u' : string) :
  str.startswith "//" u = true -> _splitnetloc u = (n, u') ->
  fragment_segment u' = fragment_segment u /\ query_segment u' = query_segment u.
Proof.
  intros S H. destruct (prefix_split _ _ S) as [r ->].
  unfold _splitnetloc in H. cbn [drop append] in H.
  destruct (span_spec _ _ _ _ H) as (-> & A & _).
  change (String "/" (String "/" (n ++ u'))) with ("//" ++ n ++ u').
  rewrite <- app_assoc.
  destruct (segments_app ("//" ++ n) u') as [F Q];
    [rewrite has_char_app, (all_chars_has_char _ _ _ A); reflexivity..|].
  now rewrite F, Q.
Qed.

(** ** Objects *)

Lemma str_of_int_truthy (n : Z) : str_truthy (str_of_int n) = true.
Proof.
  unfold str_of_int. destruct (Z.to_int n) as [d|d]; [|reflexivity].
  destruct d; reflexivity.
Qed.

(** The text of a true object is not empty. *)
Lemma py_str_truthy (o : pyobj) :
  truthy o = true -> str_truthy (py_str o) = true.
Proof.
  destruct o as [|s|n]; simpl; intros H;
    [discriminate | exact H | apply str_of_int_truthy].
Qed.

Lemma drop_app (s t : string) : drop (String.length s) (s ++ t) = t.
Proof. induction s as [|a s IH]; simpl; [now destruct t | exact IH]. Qed.

Lemma prefix_drop (p s : string) :
  prefix p s = true -> s = p ++ drop (String.length p) s.
Proof.
  intros H. destruct (prefix_split _ _ H) as [r ->]. now rewrite drop_app.
Qed.

(** ** Parsing, for any patterns *)

Section Properties.

Variable DID_URL_DID_PART_PATTERN : string -> option string.
Variable DID_URL_RELATIVE_FRONT : string -> bool.
Variable unicodedata_normalize_NFKC : string -> string.

Local Abbreviation _checknetloc := (_checknetloc unicodedata_normalize_NFKC).
Local Abbreviation urlsplit := (urlsplit unicodedata_normalize_NFKC).
Local Abbreviation urlparse := (urlparse unicodedata_normalize_NFKC).
Local Abbreviation __init__ :=
  (__init__ DID_URL_DID_PART_PATTERN DID_URL_RELATIVE_FRONT unicodedata_normalize_NFKC).
Local Abbreviation parse :=
  (parse DID_URL_DID_PART_PATTERN DID_URL_RELATIVE_FRONT unicodedata_normalize_NFKC).
Local Abbreviation unparse :=
  (unparse DID_URL_DID_PART_PATTERN DID_URL_RELATIVE_FRONT unicodedata_normalize_NFKC).
Local Abbreviation as_absolute :=
  (as_absolute DID_URL_DID_PART_PATTERN DID_URL_RELATIVE_FRONT unicodedata_normalize_NFKC).
Local Abbreviation validate :=
  (validate DID_URL_DID_PART_PATTERN DID_URL_RELATIVE_FRONT unicodedata_normalize_NFKC).
Local Abbreviation is_valid :=
  (is_valid DID_URL_DID_PART_PATTERN DID_URL_RELATIVE_FRONT unicodedata_normalize_NFKC).

(** Case analysis on a call that may raise, inside a goal or a hypothesis. *)
Ltac case_result r :=
  let E := fresh "E" in
  destruct r eqn:E; cbn [bind] in *; try discriminate.

Lemma checknetloc_raises (netloc : string) (e : exn) :
  _checknetloc netloc = Raise e -> isinstance_ValueError e = true.
Proof.
  unfold _checknetloc.
  repeat match goal with |- context [if ?b then _ else _] => destruct b end;
    intros H; try discriminate; now injection H as <-.
Qed.

(** The last steps of [urlsplit], from the text left after the network
    location. *)
Lemma urlsplit_tail (sch netloc u : string) (r : SplitResult.t) :
  (let '(url1, fragment) := split_off "#" u in
   let '(url2, query) := split_off "?" url1 in
   let* _ := _checknetloc netloc in
   Ok (SplitResult.mk sch netloc url2 query fragment)) = Ok r ->
  SplitResult.fragment r = fragment_segment u /\
  SplitResult.query r = query_segment u.
Proof.
  unfold fragment_segment, query_segment.
  destruct (split_off "#" u) as [url1 fragment]. cbn [fst snd].
  destruct (split_off "?" url1) as [url2 query]. cbn [fst snd].
  case_result (_checknetloc netloc). intros H. now injection H as <-.
Qed.

(** The fragment and the query that [urlsplit] returns are the two segments
    of its argument, without tab, carriage return and line feed. *)
Lemma urlsplit_segments (url : string) (r : SplitResult.t) :
  urlsplit url = Ok r ->
  SplitResult.fragment r = remove_unsafe (fragment_segment url) /\
  SplitResult.query r = remove_unsafe (query_segment url).
Proof.
  unfold urlsplit.
  destruct (segments_lstrip url) as [F1 Q1].
  rewrite <- F1, <- Q1, <- fragment_segment_remove_unsafe, <- query_segment_remove_unsafe.
  generalize (remove_unsafe (str.lstrip is_c0_control_or_space url)); intros u2.
  destruct (split_scheme u2) as [sch u3] eqn:S.
  destruct (segments_split_scheme _ _ _ S) as [F3 Q3]. rewrite <- F3, <- Q3.
  clear S F3 Q3 F1 Q1.
  destruct (str.startswith "//" u3) eqn:St.
  - destruct (_splitnetloc u3) as [netloc u4] eqn:N.
    destruct (segments_splitnetloc _ _ _ St N) as [F4 Q4]. rewrite <- F4, <- Q4.
    match goal with |- context [if ?b then Raise _ else _] => destruct b end;
      cbn [bind]; [discriminate | apply urlsplit_tail].
  - cbn [bind]. apply urlsplit_tail.
Qed.

Lemma urlsplit_raises (url : string) (e : exn) :
  urlsplit url = Raise e -> isinstance_ValueError e = true.
Proof.
  unfold urlsplit.
  destruct (split_scheme _) as [sch u3].
  assert (T : forall netloc u,
    (let '(url1, fragment) := split_off "#" u in
     let '(url2, query) := split_off "?" url1 in
     let* _ := _checknetloc netloc in
     Ok (SplitResult.mk sch netloc url2 query fragment)) = Raise e ->
    isinstance_ValueError e = true).
  { intros netloc u. destruct (split_off "#" u) as [url1 fragment].
    destruct (split_off "?" url1) as [url2 query].
    destruct (_checknetloc netloc) eqn:C; cbn [bind]; [discriminate|].
    intros H; injection H as <-. exact (checknetloc_raises _ _ C). }
  destruct (str.startswith "//" u3); [|cbn [bind]; apply T].
  destruct (_splitnetloc u3) as [netloc u4].
  match goal with |- context [if ?b then Raise _ else _] => destruct b end;
    cbn [bind]; [|apply T].
  intros H; now injection H as <-.
Qed.

Lemma urlparse_segments (url : string) (parts : ParseResult.t) :
  urlparse url = Ok parts ->
  ParseResult.fragment parts = remove_unsafe (fragment_segment url) /\
  ParseResult.query parts = remove_unsafe (query_segment url).
Proof.
  unfold urlparse. destruct (urlsplit url) as [r|] eqn:E; cbn [bind]; [|discriminate].
  destruct (urlsplit_segments _ _ E) as [F Q]. destruct r as [sch nl p q f].
  cbn [SplitResult.fragment SplitResult.query] in F, Q.
  match goal with |- context [if ?b then _ else _] => destruct b end.
  - destruct (_splitparams p). intros H; injection H as <-. now split.
  - intros H; injection H as <-. now split.
Qed.

Lemma urlparse_raises (url : string) (e : exn) :
  urlparse url = Raise e -> isinstance_ValueError e = true.
Proof.
  unfold urlparse. destruct (urlsplit url) as [r|] eqn:E; cbn [bind].
  - destruct r as [sch nl p q f].
    match goal with |- context [if ?b then _ else _] => destruct b end;
      [destruct (_splitparams p)|]; discriminate.
  - intros H; injection H as <-. exact (urlsplit_raises _ _ E).
Qed.

(** What a successful construction has done. *)
Lemma init_ok (s : string) (v : DIDUrl) :
  __init__ (PyStr s) = Ok v ->
  exists url_component parts,
    urlparse url_component = Ok parts /\
    match DID_URL_DID_PART_PATTERN s with
    | Some d =>
        exists pieces a,
          str.split d s = Ok pieces /\ unpack2 pieces = Ok (a, url_component) /\
          did v = Some d
    | None =>
        DID_URL_RELATIVE_FRONT s = true /\ url_component = s /\ did v = None
    end /\
    text v = s /\
    path v = or_None (ParseResult.path parts) /\
    query v = (if str_truthy (ParseResult.query parts)
               then Some (dict_of_pairs (parse_qsl (ParseResult.query parts)))
               else None) /\
    fragment v = or_None (ParseResult.fragment parts).
Proof.
  unfold __init__.
  destruct (DID_URL_DID_PART_PATTERN s) as [d|].
  - destruct (str.split d s) as [pieces|] eqn:S; cbn [bind]; [|discriminate].
    destruct (unpack2 pieces) as [[a uc]|] eqn:U; cbn [bind]; [|discriminate].
    destruct (urlparse uc) as [parts|] eqn:E; cbn [bind]; [|discriminate].
    intros H; injection H as <-. exists uc, parts. cbn.
    repeat split; eauto.
  - destruct (DID_URL_RELATIVE_FRONT s); cbn [negb bind]; [|discriminate].
    destruct (urlparse s) as [parts|] eqn:E; cbn [bind]; [|discriminate].
    intros H; injection H as <-. exists s, parts. cbn. repeat split; eauto.
Qed.

(** A string makes the constructor raise nothing but a [ValueError]. *)
Lemma init_raises (s : string) (e : exn) :
  __init__ (PyStr s) = Raise e -> isinstance_ValueError e = true.
Proof.
  unfold __init__.
  assert (T : forall (self_did : option string) uc,
    (let* parts := urlparse uc in
     Ok {| text := s; did := self_did;
           path := or_None (ParseResult.path parts);
           query := if str_truthy (ParseResult.query parts)
                    then Some (dict_of_pairs (parse_qsl (ParseResult.query parts)))
                    else None;
           fragment := or_None (ParseResult.fragment parts) |}) = Raise e ->
    isinstance_ValueError e = true).
  { intros self_did uc. destruct (urlparse uc) eqn:E; cbn [bind]; [discriminate|].
    intros H; injection H as <-. exact (urlparse_raises _ _ E). }
  destruct (DID_URL_DID_PART_PATTERN s) as [d|].
  - unfold str.split. destruct d as [|c d]; cbn [bind].
    + intros H; now injection H as <-.
    + destruct (str.split_scan (String c d) s 0 "") as [|x [|y [|z l]]];
        cbn [unpack2 bind]; try (intros H; now injection H as <-).
      apply T.
  - destruct (DID_URL_RELATIVE_FRONT s); cbn [negb bind]; [apply T|].
    intros H; now injection H as <-.
Qed.

(** C3: a string that matches neither the DID-part pattern nor the
    relative-front pattern makes [parse] raise [InvalidDIDUrlError], with a
    message that contains the string. *)
Theorem parse_rejects_unmatched (s : string) :
  DID_URL_DID_PART_PATTERN s = None ->
  DID_URL_RELATIVE_FRONT s = false ->
  exists msg,
    parse (PyStr s) = Raise (InvalidDIDUrlError msg) /\
    str.contains s msg = true.
Proof.
  intros M R. unfold parse, __init__. rewrite M, R. cbn [negb bind].
  eexists; split; [reflexivity | apply contains_app].
Qed.

(** C8: [is_valid] returns [True] exactly when [parse] succeeds; it returns
    [False] when [parse] raises [InvalidDIDUrlError] or any other
    [ValueError]; an exception of any other kind is not turned into [False]
    and leaves [is_valid] as it left [parse].  On a string [parse] raises
    nothing else than a [ValueError], so [is_valid] returns a boolean. *)
Theorem is_valid_reflects_parse (url : pyobj) :
  (is_valid url = Ok true <-> exists v, parse url = Ok v) /\
  (forall e, parse url = Raise e -> isinstance_ValueError e = true ->
             is_valid url = Ok false) /\
  (forall e, parse url = Raise e -> isinstance_ValueError e = false ->
             is_valid url = Raise e) /\
  (forall s, url = PyStr s -> exists b, is_valid url = Ok b).
Proof.
  unfold is_valid, validate. repeat split.
  - destruct (parse url) as [v|e]; [eauto|].
    destruct (isinstance_ValueError e); discriminate.
  - intros [v ->]. reflexivity.
  - intros e -> ->. reflexivity.
  - intros e -> ->. reflexivity.
  - intros s ->. unfold parse. destruct (__init__ (PyStr s)) as [v|e] eqn:E; [eauto|].
    rewrite (init_raises _ _ E). eauto.
Qed.

(** C6, as amended: when the [fragment] argument of [unparse] is true, the
    composed string ends with [#] followed by the text of the fragment as
    [str] gives it, not percent-encoded; so does the string value of the
    object returned. *)
Theorem unparse_fragment_suffix (did : string) (path : option string)
  (query : option dict) (fragment : pyobj) :
  truthy fragment = true ->
  str.endswith ("#" ++ py_str fragment) (unparse_value did path query fragment) = true /\
  forall v, unparse did path query fragment = Ok v ->
            str.endswith ("#" ++ py_str fragment) (text v) = true.
Proof.
  intros T.
  assert (E : str.endswith ("#" ++ py_str fragment)
                (unparse_value did path query fragment) = true).
  { unfold unparse_value. rewrite T. cbn [opt_truthy opt_get].
    rewrite (py_str_truthy _ T). apply endswith_app. }
  split; [exact E|]. intros v H. unfold unparse in H.
  destruct (init_ok _ _ H) as (uc & parts & _ & _ & -> & _). exact E.
Qed.

(** The patterns are anchored at the start of the string: the DID text is a
    prefix of the string, it is not empty, and it holds neither [#] nor
    [?]. *)
Hypothesis pattern_prefix : forall url d,
  DID_URL_DID_PART_PATTERN url = Some d -> d <> "" /\ prefix d url = true.
Hypothesis pattern_no_delimiter : forall url d,
  DID_URL_DID_PART_PATTERN url = Some d ->
  str.has_char "#" d = false /\ str.has_char "?" d = false.

(** The text handed to [urlparse] has the segments of the whole string. *)
Lemma init_segments (s : string) (v : DIDUrl) :
  __init__ (PyStr s) = Ok v ->
  exists parts,
    ParseResult.fragment parts = remove_unsafe (fragment_segment s) /\
    ParseResult.query parts = remove_unsafe (query_segment s) /\
    query v = (if str_truthy (ParseResult.query parts)
               then Some (dict_of_pairs (parse_qsl (ParseResult.query parts)))
               else None) /\
    fragment v = or_None (ParseResult.fragment parts).
Proof.
  intros H. destruct (init_ok _ _ H) as (uc & parts & U & M & _ & _ & Q & F).
  exists parts. destruct (urlparse_segments _ _ U) as [F' Q'].
  rewrite F', Q'. repeat split; [| |now rewrite <- Q'|now rewrite <- F'].
  - destruct (DID_URL_DID_PART_PATTERN s) as [d|] eqn:P.
    + destruct M as (pieces & a & S & U2 & _).
      destruct (pattern_prefix _ _ P) as [N Pre].
      destruct (pattern_no_delimiter _ _ P) as [Hh _].
      rewrite (prefix_drop _ _ Pre) in S |- *.
      destruct (split_unpack_front _ _ _ _ _ N S U2) as [_ ->].
      now rewrite fragment_segment_app.
    + now destruct M as (_ & -> & _).
  - destruct (DID_URL_DID_PART_PATTERN s) as [d|] eqn:P.
    + destruct M as (pieces & a & S & U2 & _).
      destruct (pattern_prefix _ _ P) as [N Pre].
      destruct (pattern_no_delimiter _ _ P) as [Hh Hq].
      rewrite (prefix_drop _ _ Pre) in S |- *.
      destruct (split_unpack_front _ _ _ _ _ N S U2) as [_ ->].
      now rewrite query_segment_app.
    + now destruct M as (_ & -> & _).
Qed.

(** C7, as amended: the fragment of a parsed DIDUrl is the text after the
    first [#] of the input, taken as it stands but for the tabs, carriage
    returns and line feeds that [urlparse] removes; it is not
    percent-decoded.  It is [None] when that text is empty or when there is
    no [#]. *)
Theorem fragment_is_raw_segment (s : string) (v : DIDUrl) :
  parse (PyStr s) = Ok v ->
  fragment v = or_None (remove_unsafe (fragment_segment s)).
Proof.
  intros H. destruct (init_segments _ _ H) as (parts & F & _ & _ & ->).
  now rewrite F.
Qed.

(** C4, as amended: the query of a parsed DIDUrl is [None] exactly when the
    text between the first [?] and the first [#] is empty once tabs,
    carriage returns and line feeds are removed; otherwise it is the
    mapping decoded from that text, which is present even when it has no
    entry. *)
Theorem query_none_iff_raw_empty (s : string) (v : DIDUrl) :
  parse (PyStr s) = Ok v ->
  let raw := remove_unsafe (query_segment s) in
  query v = (if str_truthy raw then Some (dict_of_pairs (parse_qsl raw)) else None) /\
  (query v = None <-> raw = "").
Proof.
  intros H raw. destruct (init_segments _ _ H) as (parts & _ & Q & -> & _).
  rewrite Q. fold raw. split; [reflexivity|].
  destruct raw; simpl; split; (discriminate || reflexivity).
Qed.

(** When the DID text occurs again after its first occurrence, the split
    has more than two pieces and unpacking them raises [ValueError]. *)
Lemma init_repeat (url d : string) :
  DID_URL_DID_PART_PATTERN url = Some d ->
  str.contains d (drop (String.length d) url) = true ->
  __init__ (PyStr url) =
  Raise (ValueError "too many values to unpack (expected 2)").
Proof.
  intros P C. destruct (pattern_prefix _ _ P) as [N Pre].
  destruct (split_unpack_repeat _ _ N C) as (pieces & S & U).
  rewrite <- (prefix_drop _ _ Pre) in S.
  unfold __init__. rewrite P, S. cbn [bind]. now rewrite U.
Qed.

End Properties.

(** ** The patterns of [pydid.common] *)

Lemma method_char_idchar (c : ascii) :
  common.is_method_char c = true -> common.is_idchar c = true.
Proof.
  unfold common.is_method_char, common.is_idchar, is_alnum.
  destruct (is_lower c), (is_digit c), (is_upper c); simpl; congruence.
Qed.

(** The DID text that the pattern finds is a prefix of the string, made of
    identifier characters, and it stops at the end of the string or before
    a character that is not one. *)
Lemma common_pattern_shape (url d : string) :
  common.DID_URL_DID_PART_PATTERN url = Some d ->
  exists rest,
    url = d ++ rest /\ d <> "" /\ all_chars common.is_idchar d = true /\
    match rest with
    | EmptyString => True
    | String c _ => common.is_idchar c = false
    end.
Proof.
  unfold common.DID_URL_DID_PART_PATTERN.
  destruct (prefix "did:" url) eqn:Pre; [|discriminate].
  destruct (prefix_split _ _ Pre) as [r ->]. cbn [append drop].
  destruct (span common.is_method_char r) as [m am] eqn:Sm.
  destruct (span_spec _ _ _ _ Sm) as (-> & Hm & _).
  destruct m as [|m0 m]; [discriminate|].
  destruct am as [|c ac]; [discriminate|].
  destruct (Ascii.eqb_spec c ":") as [->|_]; [|discriminate].
  destruct (span common.is_idchar ac) as [id rest] eqn:Si.
  destruct (span_spec _ _ _ _ Si) as (-> & Hi & Hr).
  destruct id as [|i0 id]; [discriminate|].
  intros H; injection H as <-. exists rest. repeat split.
  - cbn [append]. do 4 f_equal. f_equal.
    change (String ":" (String i0 id ++ rest)) with (":" ++ String i0 id ++ rest).
    now rewrite !app_assoc.
  - discriminate.
  - change (all_chars common.is_idchar ("did:" ++ String m0 m ++ ":" ++ String i0 id) = true).
    rewrite !all_chars_app, Hi, (all_chars_impl _ _ _ method_char_idchar Hm).
    reflexivity.
  - exact Hr.
Qed.

Lemma common_pattern_prefix (url d : string) :
  common.DID_URL_DID_PART_PATTERN url = Some d ->
  d <> "" /\ prefix d url = true.
Proof.
  intros H. destruct (common_pattern_shape _ _ H) as (rest & -> & N & _).
  split; [exact N | apply prefix_app].
Qed.

Lemma common_pattern_no_delimiter (url d : string) :
  common.DID_URL_DID_PART_PATTERN url = Some d ->
  str.has_char "#" d = false /\ str.has_char "?" d = false.
Proof.
  intros H. destruct (common_pattern_shape _ _ H) as (rest & _ & _ & A & _).
  split; now apply (all_chars_has_char _ _ _ A).
Qed.

(** The DID text does not occur in the string at a position inside its
    first occurrence: every occurrence but the first lies in the rest. *)
Lemma common_pattern_no_overlap (url d : string) (p : nat) :
  common.DID_URL_DID_PART_PATTERN url = Some d ->
  0 < p -> occurs_at d url p ->
  str.contains d (drop (String.length d) url) = true.
Proof.
  intros H Hp O. destruct (common_pattern_shape _ _ H) as (rest & -> & N & A & R).
  rewrite drop_app. unfold occurs_at in O.
  destruct (Nat.lt_ge_cases p (String.length d)) as [Lt|Ge].
  - exfalso.
    assert (I : String.length d - p < String.length d) by lia.
    destruct (get_some _ _ I) as [c G].
    pose proof (all_chars_get _ _ _ _ A G) as Hc.
    assert (G' : get (String.length d - p)
                   (substring p (String.length d) (d ++ rest)) = Some c)
      by (rewrite O; exact G).
    rewrite substring_correct1 in G' by exact I.
    replace (String.length d - p + p) with (0 + String.length d) in G' by lia.
    rewrite <- append_correct2 in G'.
    destruct rest as [|c' rest]; [discriminate|].
    simpl in G'. injection G' as ->. congruence.
  - rewrite substring_app_r in O by exact Ge.
    exact (contains_occurs _ _ _ O).
Qed.

(** ** The class [DIDUrl] of pydid *)

(** C2: the split is a search for the DID text in the whole string, and it
    takes every occurrence, not the first only.  On
    [did:example:123/did:example:123] the pattern finds the DID
    [did:example:123], the text after its first occurrence is
    [/did:example:123], but the split has three pieces and the constructor
    raises [ValueError] instead of parsing that remainder. *)
Theorem literal_split_takes_every_occurrence :
  common.DID_URL_DID_PART_PATTERN "did:example:123/did:example:123"
    = Some "did:example:123" /\
  drop (String.length "did:example:123") "did:example:123/did:example:123"
    = "/did:example:123" /\
  str.split "did:example:123" "did:example:123/did:example:123"
    = Ok [""; "/"; ""] /\
  pydid.parse (PyStr "did:example:123/did:example:123")
    = Raise (ValueError "too many values to unpack (expected 2)").
Proof. repeat split; reflexivity. Qed.

(** C1: a valid absolute DID URL that [parse] does not accept.  In
    [did:example:123/did:example:123] the DID-part pattern finds the DID
    [did:example:123]; what follows it, [/did:example:123], is a path that
    [urlparse] takes as it stands and that [parse] accepts as a relative
    DID URL.  Yet the constructor raises the [ValueError] of the
    unpacking: [parse] returns no DIDUrl whose text would be the string,
    and [is_valid] returns [False]. *)
Theorem valid_absolute_url_not_parsed :
  common.DID_URL_DID_PART_PATTERN "did:example:123/did:example:123"
    = Some "did:example:123" /\
  urlparse NFKC_ascii "/did:example:123"
    = Ok (ParseResult.mk "" "" "/did:example:123" "" "" "") /\
  pydid.parse (PyStr "/did:example:123")
    = Ok {| text := "/did:example:123"; did := None;
            path := Some "/did:example:123"; query := None;
            fragment := None |} /\
  pydid.parse (PyStr "did:example:123/did:example:123")
    = Raise (ValueError "too many values to unpack (expected 2)") /\
  (forall v, pydid.parse (PyStr "did:example:123/did:example:123") <> Ok v) /\
  pydid.is_valid (PyStr "did:example:123/did:example:123") = Ok false.
Proof.
  repeat split; try reflexivity. intros v H. discriminate H.
Qed.

(** C10: when the DID text that the pattern finds occurs in the string a
    second time, at any position, the constructor raises the [ValueError]
    of unpacking more than two pieces; [parse] fails and [is_valid] returns
    [False], although the string begins with a DID. *)
Theorem repeated_did_raises (nfkc : string -> string) (url d : string) (p : nat) :
  common.DID_URL_DID_PART_PATTERN url = Some d ->
  0 < p -> occurs_at d url p ->
  __init__ common.DID_URL_DID_PART_PATTERN common.DID_URL_RELATIVE_FRONT nfkc
    (PyStr url)
    = Raise (ValueError "too many values to unpack (expected 2)") /\
  parse common.DID_URL_DID_PART_PATTERN common.DID_URL_RELATIVE_FRONT nfkc
    (PyStr url)
    = Raise (ValueError "too many values to unpack (expected 2)") /\
  is_valid common.DID_URL_DID_PART_PATTERN common.DID_URL_RELATIVE_FRONT nfkc
    (PyStr url) = Ok false.
Proof.
  intros H Hp O.
  pose proof (init_repeat _ common.DID_URL_RELATIVE_FRONT nfkc
                common_pattern_prefix url d H
                (common_pattern_no_overlap _ _ _ H Hp O)) as E.
  unfold is_valid, validate, parse. rewrite E. auto.
Qed.

Lemma repeated_did_raises_witness :
  pydid.__init__ (PyStr "did:example:123/did:example:123")
    = Raise (ValueError "too many values to unpack (expected 2)") /\
  pydid.parse (PyStr "did:example:123/did:example:123")
    = Raise (ValueError "too many values to unpack (expected 2)") /\
  pydid.is_valid (PyStr "did:example:123/did:example:123") = Ok false.
Proof.
  apply (repeated_did_raises NFKC_ascii "did:example:123/did:example:123"
           "did:example:123" 16); [reflexivity | lia | reflexivity].
Defined.

Lemma parse_rejects_unmatched_witness :
  exists msg,
    pydid.parse (PyStr "not-a-did-at-all") = Raise (InvalidDIDUrlError msg) /\
    str.contains "not-a-did-at-all" msg = true.
Proof.
  apply (parse_rejects_unmatched common.DID_URL_DID_PART_PATTERN
           common.DID_URL_RELATIVE_FRONT NFKC_ascii "not-a-did-at-all");
    reflexivity.
Defined.

(** The exception of a call on an object that is not a string leaves
    [is_valid]. *)
Example is_valid_propagates_TypeError :
  pydid.is_valid PyNone = Raise (TypeError "expected string or bytes-like object") /\
  pydid.is_valid (PyStr "not-a-did-at-all") = Ok false /\
  pydid.is_valid (PyStr "did:example:123/did:example:123") = Ok false /\
  pydid.is_valid (PyStr "/some/path?query=test") = Ok true.
Proof. repeat split; reflexivity. Qed.

(** C4, the claim as stated fails: a query without a value, as in
    [did:example:123?a], gives a mapping that is present and empty. *)
Lemma query_present_and_empty :
  pydid.parse (PyStr "did:example:123?a") =
  Ok {| text := "did:example:123?a"; did := Some "did:example:123";
        path := None; query := Some []; fragment := None |}.
Proof. reflexivity. Qed.

Lemma query_none_iff_raw_empty_witness :
  query {| text := "did:example:123?"; did := Some "did:example:123";
           path := None; query := None; fragment := None |} =
  (if str_truthy (remove_unsafe (query_segment "did:example:123?"))
   then Some (dict_of_pairs (parse_qsl (remove_unsafe (query_segment "did:example:123?"))))
   else None) /\
  (query {| text := "did:example:123?"; did := Some "did:example:123";
            path := None; query := None; fragment := None |} = None <->
   remove_unsafe (query_segment "did:example:123?") = "").
Proof.
  apply (query_none_iff_raw_empty common.DID_URL_DID_PART_PATTERN
           common.DID_URL_RELATIVE_FRONT NFKC_ascii
           common_pattern_prefix common_pattern_no_delimiter
           "did:example:123?").
  reflexivity.
Defined.

(** The empty query of [did:example:123?] is normalised to [None]. *)
Example empty_query_is_None :
  pydid.parse (PyStr "did:example:123?") =
  Ok {| text := "did:example:123?"; did := Some "did:example:123";
        path := None; query := None; fragment := None |}.
Proof. reflexivity. Qed.

(** C7, the claim as stated fails: the fragment of [did:example:123#a%20b]
    is [a%20b], whereas the percent-decoded text of that segment is
    [a b]. *)
Lemma fragment_not_percent_decoded :
  pydid.parse (PyStr "did:example:123#a%20b") =
  Ok {| text := "did:example:123#a%20b"; did := Some "did:example:123";
        path := None; query := None; fragment := Some "a%20b" |} /\
  unquote "a%20b" = "a b".
Proof. split; reflexivity. Qed.

Lemma fragment_is_raw_segment_witness :
  fragment {| text := "did:example:123/some/path#frag";
              did := Some "did:example:123"; path := Some "/some/path";
              query := None; fragment := Some "frag" |} =
  or_None (remove_unsafe (fragment_segment "did:example:123/some/path#frag")).
Proof.
  apply (fragment_is_raw_segment common.DID_URL_DID_PART_PATTERN
           common.DID_URL_RELATIVE_FRONT NFKC_ascii
           common_pattern_prefix common_pattern_no_delimiter
           "did:example:123/some/path#frag").
  reflexivity.
Defined.

(** C5, the claim as stated fails: numeric zero is false, so [unparse]
    drops it before [str] is applied and the fragment is absent. *)
Lemma numeric_zero_fragment_absent :
  pydid.unparse "did:example:123" None None (PyInt 0) =
  Ok {| text := "did:example:123"; did := Some "did:example:123";
        path := None; query := None; fragment := None |}.
Proof. reflexivity. Qed.

(** C5, as amended: [unparse] tests the truth of the [fragment] argument
    first and applies [str] to it only when it is true.  A false argument
    contributes nothing.  The string ["0"] is true, and
    [unparse("did:example:123", fragment="0")] has the fragment ["0"];
    numeric zero is false, and with it the fragment is absent. *)
Theorem unparse_tests_fragment_first :
  (forall did path query f,
     truthy f = false ->
     unparse_value did path query f = unparse_value did path query PyNone) /\
  truthy (PyStr "0") = true /\
  truthy (PyInt 0) = false /\
  pydid.unparse "did:example:123" None None (PyStr "0") =
    Ok {| text := "did:example:123#0"; did := Some "did:example:123";
          path := None; query := None; fragment := Some "0" |} /\
  pydid.unparse "did:example:123" None None (PyInt 0) =
    pydid.parse (PyStr "did:example:123").
Proof.
  repeat split; try reflexivity.
  intros did path query f T. unfold unparse_value. now rewrite T.
Qed.

(** C6, the claim as stated fails: with the fragment [a b] the composed
    string is [did:example:123#a b]; it does not end with [#] followed by
    the percent-encoded form [a%20b]. *)
Lemma fragment_not_percent_encoded :
  truthy (PyStr "a b") = true /\
  unparse_value "did:example:123" None None (PyStr "a b") = "did:example:123#a b" /\
  quote (py_str (PyStr "a b")) "/" = "a%20b" /\
  str.endswith ("#" ++ quote (py_str (PyStr "a b")) "/")
    (unparse_value "did:example:123" None None (PyStr "a b")) = false /\
  pydid.unparse "did:example:123" None None (PyStr "a b") =
    Ok {| text := "did:example:123#a b"; did := Some "did:example:123";
          path := None; query := None; fragment := Some "a b" |}.
Proof. repeat split; reflexivity. Qed.

Lemma unparse_fragment_suffix_witness :
  str.endswith ("#" ++ py_str (PyStr "a b"))
    (unparse_value "did:example:123" (Some "some/path") (Some [("query", "test")])
       (PyStr "a b")) = true /\
  forall v,
    pydid.unparse "did:example:123" (Some "some/path") (Some [("query", "test")])
      (PyStr "a b") = Ok v ->
    str.endswith ("#" ++ py_str (PyStr "a b")) (text v) = true.
Proof.
  apply (unparse_fragment_suffix common.DID_URL_DID_PART_PATTERN
           common.DID_URL_RELATIVE_FRONT NFKC_ascii).
  reflexivity.
Defined.

(** C9: [as_absolute] is [unparse] on the given DID and on the path, the
    query and the fragment of the object; the DID that the object has does
    not count.  The relative DIDUrl parsed from [/some/path#frag], made
    absolute with [did:example:123], is the DIDUrl parsed from
    [did:example:123/some/path#frag]. *)
Theorem as_absolute_is_unparse :
  (forall PAT REL nfkc (v : DIDUrl) (d : string),
     as_absolute PAT REL nfkc v d =
     unparse PAT REL nfkc d (path v) (query v) (pyobj_of_opt (fragment v))) /\
  (forall PAT REL nfkc (v : DIDUrl) (old : option string) (d : string),
     as_absolute PAT REL nfkc
       {| text := text v; did := old; path := path v; query := query v;
          fragment := fragment v |} d =
     as_absolute PAT REL nfkc v d) /\
  (exists rel,
     pydid.parse (PyStr "/some/path#frag") = Ok rel /\
     did rel = None /\
     pydid.as_absolute rel "did:example:123" =
       pydid.parse (PyStr "did:example:123/some/path#frag") /\
     exists abs,
       pydid.as_absolute rel "did:example:123" = Ok abs /\
       text abs = "did:example:123/some/path#frag" /\
       did abs = Some "did:example:123").
Proof.
  split; [reflexivity|]. split; [reflexivity|].
  eexists. split; [reflexivity|]. split; [reflexivity|]. split; [reflexivity|].
  eexists. split; [reflexivity|]. split; reflexivity.
Qed.

(** ** The examples of the documentation *)

Example parse_absolute :
  pydid.parse (PyStr "did:example:123/some/path?query=test#fragment") =
  Ok {| text := "did:example:123/some/path?query=test#fragment";
        did := Some "did:example:123"; path := Some "/some/path";
        query := Some [("query", "test")]; fragment := Some "fragment" |}.
Proof. reflexivity. Qed.

Example parse_relative :
  pydid.parse (PyStr "/some/path?query=test") =
  Ok {| text := "/some/path?query=test"; did := None;
        path := Some "/some/path"; query := Some [("query", "test")];
        fragment := None |}.
Proof. reflexivity. Qed.

Example parse_invalid :
  pydid.parse (PyStr "not-a-did-at-all") =
  Raise (InvalidDIDUrlError
           "not-a-did-at-all is not a valid absolute or relative DID URL").
Proof. reflexivity. Qed.

Example unparse_parts :
  pydid.unparse "did:example:123" (Some "some/path")
    (Some [("a b", "c&d"); ("query", "test")]) (PyInt 7) =
  Ok {| text := "did:example:123/some/path?a+b=c%26d&query=test#7";
        did := Some "did:example:123"; path := Some "/some/path";
        query := Some [("a b", "c&d"); ("query", "test")];
        fragment := Some "7" |}.
Proof. reflexivity. Qed.

(** A repeated key keeps its first place and its last value; fields without
    a value are dropped. *)
Example parse_query_fields :
  dict_of_pairs (parse_qsl "a=1&b=%41+c&a=2&&c=&d&=e&f=g=h") =
  [("a", "2"); ("b", "A c"); ("", "e"); ("f", "g=h")].
Proof. reflexivity. Qed.

Example split_examples :
  str.split "did:example:123" "did:example:123/some/path" = Ok [""; "/some/path"] /\
  str.split "ab" "abcabab" = Ok [""; "c"; ""; ""] /\
  str.split "aa" "aaa" = Ok [""; "a"].
Proof. repeat split; reflexivity. Qed.

Example urlparse_examples :
  urlparse NFKC_ascii "/a;b/c;d?x#y" =
    Ok (ParseResult.mk "" "" "/a;b/c" "d" "x" "y") /\
  urlparse NFKC_ascii " ab:c/d;e#f" =
    Ok (ParseResult.mk "ab" "" "c/d;e" "" "" "f") /\
  urlparse NFKC_ascii "//ho st?a#b" =
    Ok (ParseResult.mk "" "ho st" "" "" "a" "b") /\
  urlparse NFKC_ascii "//[ab/x" = Raise (ValueError "Invalid IPv6 URL").
Proof. repeat split; reflexivity. Qed.

(** A tab inside the fragment is removed by [urlparse]; spaces in front of
    the URL part are stripped. *)
Example parse_removes_tab :
  pydid.parse (PyStr ("did:example:123  /p#a" ++ String "009" "b%41")) =
  Ok {| text := "did:example:123  /p#a" ++ String "009" "b%41";
        did := Some "did:example:123"; path := Some "/p";
        query := None; fragment := Some "ab%41" |}.
Proof. reflexivity. Qed.

(** * Further properties *)

(** ** More on strings *)

Lemma contains_app_r (sub s t : string) :
  str.contains sub t = true -> str.contains sub (s ++ t) = true.
Proof.
  intros H. induction s as [|a s IH]; [exact H|].
  cbn [append str.contains]. rewrite IH. apply orb_true_r.
Qed.

Lemma contains_app_r_false (sub s t : string) :
  str.contains sub (s ++ t) = false -> str.contains sub t = false.
Proof.
  intros H. destruct (str.contains sub t) eqn:E; [|reflexivity].
  now rewrite (contains_app_r _ s _ E) in H.
Qed.

Lemma contains_cons_false (sub : string) (a : ascii) (s : string) :
  str.contains sub (String a s) = false ->
  prefix sub (String a s) = false /\ str.contains sub s = false.
Proof. cbn [str.contains]. intros H. now apply orb_false_iff in H. Qed.

Lemma remove_char_app (c : ascii) (s t : string) :
  str.remove_char c (s ++ t) = str.remove_char c s ++ str.remove_char c t.
Proof.
  induction s as [|a s IH]; simpl; [reflexivity|].
  destruct (Ascii.eqb a c); simpl; now rewrite IH.
Qed.

Lemma remove_unsafe_app (s t : string) :
  remove_unsafe (s ++ t) = remove_unsafe s ++ remove_unsafe t.
Proof.
  unfold remove_unsafe, _UNSAFE_URL_BYTES_TO_REMOVE. cbn [fold_left].
  now rewrite !remove_char_app.
Qed.

Lemma remove_char_absent (c : ascii) (s : string) :
  str.has_char c s = false -> str.remove_char c s = s.
Proof.
  induction s as [|a s IH]; simpl; [reflexivity|].
  intros H. apply orb_false_iff in H as [Ha Hs]. now rewrite Ha, IH.
Qed.

(** A text without tab, carriage return and line feed passes unchanged. *)
Lemma remove_unsafe_absent (s : string) :
  str.has_char "009" s = false -> str.has_char "013" s = false ->
  str.has_char "010" s = false -> remove_unsafe s = s.
Proof.
  intros T R N. unfold remove_unsafe, _UNSAFE_URL_BYTES_TO_REMOVE.
  cbn [fold_left]. now rewrite (remove_char_absent _ _ T),
    (remove_char_absent _ _ R), (remove_char_absent _ _ N).
Qed.

Lemma split1_none (c : ascii) (s : string) :
  str.has_char c s = false -> str.split1 c s = None.
Proof.
  induction s as [|a s IH]; simpl; [reflexivity|].
  intros H. apply orb_false_iff in H as [Ha Hs]. now rewrite Ha, IH.
Qed.

Lemma split_off_absent (c : ascii) (s : string) :
  str.has_char c s = false -> split_off c s = (s, "").
Proof. intros H. unfold split_off. now rewrite split1_none. Qed.

Lemma split_off_at (c : ascii) (pre post : string) :
  str.has_char c pre = false ->
  split_off c (pre ++ String c post) = (pre, post).
Proof.
  intros H. rewrite (split_off_app _ _ _ H). unfold split_off. simpl.
  now rewrite Ascii.eqb_refl, app_nil_r.
Qed.

(** A scan that meets no separator yields the whole text as one piece. *)
Lemma split_scan_absent (sep s cur : string) :
  str.contains sep s = false -> str.split_scan sep s 0 cur = [cur ++ s].
Proof.
  revert cur; induction s as [|a s IH]; intros cur H.
  - cbn. now rewrite app_nil_r.
  - destruct (contains_cons_false _ _ _ H) as [P C].
    cbn [str.split_scan]. rewrite P, (IH _ C). now rewrite app_assoc.
Qed.

(** Splitting on a separator that the text starts with and does not hold
    again gives the empty string and the remainder. *)
Lemma split_front_once (sep s : string) :
  sep <> "" -> str.contains sep s = false ->
  str.split sep (sep ++ s) = Ok [""; s].
Proof.
  intros N C. now rewrite (split_front _ _ N), (split_scan_absent _ _ _ C).
Qed.

(** ** Mappings *)

Lemma dict_set_keys_In (d : dict) (k v x : string) :
  In x (map fst (dict_set d k v)) -> In x (map fst d) \/ x = k.
Proof.
  induction d as [|[k' v'] d IH]; simpl.
  - intros [<-|[]]. now right.
  - destruct (String.eqb_spec k' k) as [->|N]; simpl.
    + intros [<-|I]; auto.
    + intros [<-|I]; [auto|]. destruct (IH I); auto.
Qed.

(** Assigning to a key keeps the keys distinct. *)
Lemma dict_set_NoDup (d : dict) (k v : string) :
  NoDup (map fst d) -> NoDup (map fst (dict_set d k v)).
Proof.
  induction d as [|[k' v'] d IH]; simpl; intros H.
  - constructor; [intros [] | constructor].
  - inversion H as [|? ? Hn Hd]; subst.
    destruct (String.eqb_spec k' k) as [->|N]; simpl; [exact H|].
    constructor; [|now apply IH].
    intros I. destruct (dict_set_keys_In _ _ _ _ I) as [I'| ->]; contradiction.
Qed.

Lemma dict_set_In (d : dict) (k v k' x : string) :
  In (k', x) (dict_set d k v) -> In (k', x) d \/ (k', x) = (k, v).
Proof.
  induction d as [|[k0 v0] d IH]; simpl.
  - intros [E|[]]. now right.
  - destruct (String.eqb_spec k0 k) as [->|N]; simpl.
    + intros [E|I]; auto.
    + intros [E|I]; [auto|]. destruct (IH I); auto.
Qed.

Lemma dict_fold_NoDup (pairs : list (string * string)) (d : dict) :
  NoDup (map fst d) ->
  NoDup (map fst (fold_left (fun d kv => dict_set d (fst kv) (snd kv)) pairs d)).
Proof.
  revert d; induction pairs as [|[k v] pairs IH]; intros d H; simpl;
    [exact H | apply IH, dict_set_NoDup, H].
Qed.

Lemma dict_fold_In (pairs : list (string * string)) (d : dict) (k x : string) :
  In (k, x) (fold_left (fun d kv => dict_set d (fst kv) (snd kv)) pairs d) ->
  In (k, x) d \/ In (k, x) pairs.
Proof.
  revert d; induction pairs as [|[k0 v0] pairs IH]; intros d; simpl; [auto|].
  intros I. destruct (IH _ I) as [I'|I']; [|auto].
  destruct (dict_set_In _ _ _ _ _ I') as [I''|E]; [auto|].
  right. left. now symmetry.
Qed.

(** The keys of [dict(pairs)] are distinct. *)
Lemma dict_of_pairs_NoDup (pairs : list (string * string)) :
  NoDup (map fst (dict_of_pairs pairs)).
Proof. apply dict_fold_NoDup. constructor. Qed.

(** Every entry of [dict(pairs)] is one of the pairs. *)
Lemma dict_of_pairs_In (pairs : list (string * string)) (k x : string) :
  In (k, x) (dict_of_pairs pairs) -> In (k, x) pairs.
Proof. intros I. now destruct (dict_fold_In _ _ _ _ I) as [[]|]. Qed.

(** ** Decoding keeps a text that is not empty *)

Lemma truthy_app_l (s t : string) :
  str_truthy s = true -> str_truthy (s ++ t) = true.
Proof. now destruct s. Qed.

Lemma truthy_app_r (s t : string) :
  str_truthy t = true -> str_truthy (s ++ t) = true.
Proof. now destruct s. Qed.

Lemma replace_char_truthy (c d : ascii) (s : string) :
  str_truthy (str.replace_char c d s) = str_truthy s.
Proof. now destruct s. Qed.

Lemma unquote_to_bytes_truthy (s : string) :
  str_truthy s = true -> str_truthy (unquote_to_bytes s) = true.
Proof.
  destruct s as [|a s]; [discriminate|]. intros _. cbn [unquote_to_bytes].
  destruct (Ascii.eqb a "%"); [|reflexivity].
  destruct s as [|h [|l rest]]; try reflexivity.
  destruct (hex_val h), (hex_val l); reflexivity.
Qed.

Lemma utf8_lead_inl (b : ascii) (out : string) :
  utf8_lead b = inl out -> str_truthy out = true.
Proof.
  unfold utf8_lead.
  repeat match goal with |- context [if ?c then _ else _] => destruct c end;
    intros H; inversion H; reflexivity.
Qed.

Lemma utf8_lead_inr (b : ascii) (st : utf8_state) :
  utf8_lead b = inr st -> st <> Utf8Start.
Proof.
  unfold utf8_lead.
  repeat match goal with |- context [if ?c then _ else _] => destruct c end;
    intros H; inversion H; discriminate.
Qed.

Lemma utf8_decode_truthy (bs : string) (st : utf8_state) :
  str_truthy bs = true \/ st <> Utf8Start ->
  str_truthy (utf8_decode_replace st bs) = true.
Proof.
  revert st; induction bs as [|b bs IH]; intros st H.
  - destruct H as [H|H]; [discriminate|]. destruct st; [now elim H | reflexivity].
  - cbn [utf8_decode_replace].
    assert (F : str_truthy
                  match utf8_lead b with
                  | inl out => out ++ utf8_decode_replace Utf8Start bs
                  | inr st' => utf8_decode_replace st' bs
                  end = true).
    { destruct (utf8_lead b) as [out|st'] eqn:L.
      - apply truthy_app_l, (utf8_lead_inl _ _ L).
      - apply IH. right. exact (utf8_lead_inr _ _ L). }
    destruct st as [|need lo hi pending]; [exact F|].
    destruct ((lo <=? N_of_ascii b)%N && (N_of_ascii b <=? hi)%N).
    + destruct need as [|[|k]]; try (now apply truthy_app_r).
      apply IH. right. discriminate.
    + now apply truthy_app_l.
Qed.

Lemma unquote_runs_truthy (s run : string) :
  str_truthy s = true \/ str_truthy run = true ->
  str_truthy (unquote_runs s run) = true.
Proof.
  revert run; induction s as [|c s IH]; intros run H; cbn [unquote_runs].
  - destruct H as [H|H]; [discriminate|].
    apply utf8_decode_truthy. left. now apply unquote_to_bytes_truthy.
  - destruct (is_ascii c).
    + apply IH. right. now apply truthy_app_r.
    + now apply truthy_app_r.
Qed.

(** [unquote] of a text that is not empty is not empty. *)
Lemma unquote_truthy (s : string) :
  str_truthy s = true -> str_truthy (unquote s) = true.
Proof.
  intros H. unfold unquote. destruct (negb (str.has_char "%" s)); [exact H|].
  apply unquote_runs_truthy. now left.
Qed.

(** The values that [parse_qsl] returns are not empty. *)
Lemma parse_qsl_values (qs k x : string) :
  In (k, x) (parse_qsl qs) -> str_truthy x = true.
Proof.
  unfold parse_qsl. intros I. apply in_flat_map in I as (field & _ & I).
  unfold parse_qsl_field in I.
  destruct (negb (str_truthy field)); [contradiction|].
  destruct (str.split1 "=" field) as [[name value]|]; [|contradiction].
  destruct (str_truthy value) eqn:T; [|contradiction].
  destruct I as [E|[]]. injection E as _ <-.
  apply unquote_truthy. now rewrite replace_char_truthy.
Qed.

(** ** Texts that begin with a delimiter *)

Lemma char_in_front (c : ascii) :
  char_in "/?#" c = true -> c = "/"%char \/ c = "?"%char \/ c = "#"%char.
Proof.
  unfold char_in. cbn [str.has_char].
  destruct (Ascii.eqb_spec "/" c), (Ascii.eqb_spec "?" c), (Ascii.eqb_spec "#" c);
    subst; auto; discriminate.
Qed.

Lemma fronted_lstrip (u : string) :
  fronted u = true -> str.lstrip is_c0_control_or_space u = u.
Proof.
  destruct u as [|c w]; [reflexivity|]. cbn [fronted str.lstrip]. intros H.
  now destruct (char_in_front _ H) as [->|[->| ->]].
Qed.

Lemma fronted_remove_unsafe (u : string) :
  fronted u = true -> fronted (remove_unsafe u) = true.
Proof.
  destruct u as [|c w]; [reflexivity|]. cbn [fronted]. intros H.
  now destruct (char_in_front _ H) as [->|[->| ->]].
Qed.

(** Such a text has no scheme. *)
Lemma fronted_split_scheme (u : string) :
  fronted u = true -> split_scheme u = ("", u).
Proof.
  destruct u as [|c w]; [reflexivity|]. cbn [fronted]. intros H.
  unfold split_scheme. cbn [str.split1].
  destruct (char_in_front _ H) as [->|[->| ->]]; cbn;
    now destruct (str.split1 ":" w) as [[l r]|].
Qed.

(** Its path segment is empty or begins with a slash. *)
Lemma path_segment_fronted (u : string) :
  fronted u = true ->
  path_segment u = "" \/ exists w, path_segment u = String "/" w.
Proof.
  destruct u as [|c w]; [now left|]. cbn [fronted]. intros H.
  unfold path_segment, split_off.
  destruct (char_in_front _ H) as [->|[->| ->]]; cbn [str.split1]; cbn.
  - right. destruct (str.split1 "#" w) as [[l r]|]; cbn;
      [destruct (str.split1 "?" l) as [[l' r']|]
      |destruct (str.split1 "?" w) as [[l' r']|]]; cbn; eauto.
  - left. now destruct (str.split1 "#" w) as [[l r]|].
  - now left.
Qed.

Lemma rsplit1_some (c : ascii) (s l r : string) :
  rsplit1 c s = Some (l, r) -> s = l ++ String c r.
Proof.
  revert l; induction s as [|a s IH]; intros l H; cbn [rsplit1] in H;
    [discriminate|].
  destruct (rsplit1 c s) as [[l' r']|].
  - injection H as <- <-. now rewrite (IH l' eq_refl).
  - destruct (Ascii.eqb_spec a c) as [->|_]; [|discriminate].
    now injection H as <- <-.
Qed.

(** The parameters are cut off the end: what stays of a path that begins
    with a slash begins with a slash. *)
Lemma splitparams_front (w : string) :
  exists w', fst (_splitparams (String "/" w)) = String "/" w'.
Proof.
  unfold _splitparams.
  destruct (rsplit1 "/" (String "/" w)) as [[before last]|] eqn:E.
  - destruct (str.split1 ";" last) as [[l r]|]; cbn [fst]; [|eauto].
    apply rsplit1_some in E. destruct before as [|b before]; cbn; [eauto|].
    injection E as <- _. eauto.
  - cbn [rsplit1] in E. destruct (rsplit1 "/" w) as [[l r]|]; discriminate.
Qed.

(** ** The string that [unparse] composes *)

(** The composed string is the DID followed by the three parts. *)
Lemma unparse_value_parts (did : string) (path : option string)
  (query : option dict) (fragment : pyobj) :
  unparse_value did path query fragment =
  did ++ unparse_path path ++ unparse_query query ++ unparse_fragment fragment.
Proof.
  unfold unparse_value, unparse_path, unparse_query, unparse_fragment.
  assert (P : (if opt_truthy
                    (if opt_truthy path && negb (str.startswith "/" (opt_get path))
                     then Some ("/" ++ opt_get path) else path)
               then did ++ opt_get
                      (if opt_truthy path && negb (str.startswith "/" (opt_get path))
                       then Some ("/" ++ opt_get path) else path)
               else did) =
              did ++ (if opt_truthy path
                      then (if str.startswith "/" (opt_get path) then opt_get path
                            else "/" ++ opt_get path)
                      else "")).
  { destruct (opt_truthy path) eqn:T; cbn [andb].
    - destruct (str.startswith "/" (opt_get path)); cbn [negb];
        [now rewrite T | reflexivity].
    - rewrite T. now rewrite app_nil_r. }
  rewrite P. clear P.
  generalize (if opt_truthy path
              then (if str.startswith "/" (opt_get path) then opt_get path
                    else "/" ++ opt_get path)
              else ""). intros p.
  assert (F : forall value,
    (if opt_truthy (if truthy fragment then Some (py_str fragment) else None)
     then value ++ "#" ++
          opt_get (if truthy fragment then Some (py_str fragment) else None)
     else value) =
    value ++ (if truthy fragment then "#" ++ py_str fragment else "")).
  { intros value. destruct (truthy fragment) eqn:T; cbn [opt_truthy opt_get].
    - now rewrite (py_str_truthy _ T).
    - now rewrite app_nil_r. }
  rewrite F. clear F.
  destruct query as [q|]; [destruct (nonempty q)|];
    rewrite ?app_assoc; cbn [append]; rewrite ?app_assoc; reflexivity.
Qed.

(** What follows the DID is empty or begins with [/], [?] or [#]. *)
Lemma unparse_suffix_fronted (path : option string) (query : option dict)
  (fragment : pyobj) :
  fronted (unparse_path path ++ unparse_query query ++ unparse_fragment fragment)
  = true.
Proof.
  unfold unparse_path, unparse_query, unparse_fragment.
  destruct (opt_truthy path) eqn:T.
  - destruct path as [[|c p]|]; try discriminate. cbn [opt_get].
    destruct (str.startswith "/" (String c p)) eqn:S; [|reflexivity].
    destruct (prefix_split _ _ S) as [r ->]. reflexivity.
  - cbn [append]. destruct query as [[|kv q]|]; cbn [nonempty append];
      try reflexivity; now destruct (truthy fragment).
Qed.

(** ** The characters of an encoded text *)

Lemma percent_byte_chars (c : ascii) :
  all_chars (fun x => is_always_safe x || Ascii.eqb x "%") (percent_byte c) = true.
Proof. destruct c as [[] [] [] [] [] [] [] []]; reflexivity. Qed.

Lemma quote_chars (s safe : string) :
  all_chars (fun x => is_always_safe x || char_in safe x || Ascii.eqb x "%")
    (quote s safe) = true.
Proof.
  induction s as [|c s IH]; [reflexivity|]. cbn [quote].
  rewrite all_chars_app, IH, andb_true_r.
  destruct (is_always_safe c || char_in safe c) eqn:E.
  - cbn. now rewrite E.
  - eapply all_chars_impl; [|apply percent_byte_chars].
    intros x Hx. cbv beta in Hx |- *. apply orb_true_iff in Hx as [->| ->];
      [reflexivity | apply orb_true_r].
Qed.

Lemma all_chars_replace (p q : ascii -> bool) (c d : ascii) (s : string) :
  (forall x, p x = true -> q (if Ascii.eqb x c then d else x) = true) ->
  all_chars p s = true -> all_chars q (str.replace_char c d s) = true.
Proof.
  intros Hpq. induction s as [|a s IH]; simpl; [reflexivity|].
  intros H. apply andb_true_iff in H as [Ha Hs].
  now rewrite (Hpq _ Ha), IH.
Qed.

(** [quote_plus] writes letters, digits and [_], [.], [-], [~], [%], [+]. *)
Lemma quote_plus_chars (s : string) :
  all_chars is_quoted_char (quote_plus s) = true.
Proof.
  unfold quote_plus. destruct (negb (str.has_char " " s)).
  - eapply all_chars_impl; [|apply quote_chars].
    intros x. unfold is_quoted_char.
    destruct (Ascii.eqb_spec x "%") as [->|N]; [reflexivity|].
    destruct (is_always_safe x); [reflexivity|]. discriminate.
  - eapply all_chars_replace; [|apply quote_chars].
    intros x. unfold is_quoted_char.
    destruct (Ascii.eqb_spec x "%") as [->|N]; [reflexivity|].
    destruct (Ascii.eqb_spec x " ") as [->|M]; [reflexivity|].
    destruct (is_always_safe x); [reflexivity|].
    unfold char_in. cbn [str.has_char orb].
    destruct (Ascii.eqb_spec " " x) as [<-|_]; [now elim M | discriminate].
Qed.

Lemma concat_chars (p : ascii -> bool) (sep : string) (l : list string) :
  all_chars p sep = true -> (forall x, In x l -> all_chars p x = true) ->
  all_chars p (concat sep l) = true.
Proof.
  intros Hs. induction l as [|x l IH]; intros H; [reflexivity|].
  cbn [concat]. destruct l as [|y l]; [apply H; now left|].
  rewrite !all_chars_app, Hs, (H x (or_introl eq_refl)). cbn [andb].
  apply IH. intros z Hz. apply H. now right.
Qed.

(** [urlencode] writes those characters and [&], [=]. *)
Lemma urlencode_chars (q : dict) :
  all_chars (fun x => is_quoted_char x || char_in "&=" x) (urlencode q) = true.
Proof.
  unfold urlencode, str.join. apply concat_chars; [reflexivity|].
  assert (Q : forall s,
    all_chars (fun x => is_quoted_char x || char_in "&=" x) (quote_plus s) = true).
  { intros s. eapply all_chars_impl; [|apply quote_plus_chars].
    intros c H. cbv beta. now rewrite H. }
  intros x Hx. apply in_map_iff in Hx as ([k v] & <- & _). cbn [fst snd].
  now rewrite !all_chars_app, !Q.
Qed.

Lemma quote_plus_has_char (c : ascii) (s : string) :
  is_quoted_char c = false -> str.has_char c (quote_plus s) = false.
Proof. intros H. exact (all_chars_has_char _ _ _ (quote_plus_chars s) H). Qed.

Lemma urlencode_has_char (c : ascii) (q : dict) :
  is_quoted_char c || char_in "&=" c = false ->
  str.has_char c (urlencode q) = false.
Proof. intros H. exact (all_chars_has_char _ _ _ (urlencode_chars q) H). Qed.

Lemma unparse_path_has_char (c : ascii) (path : option string) :
  c <> "/"%char -> str.has_char c (opt_get path) = false ->
  str.has_char c (unparse_path path) = false.
Proof.
  intros N H. unfold unparse_path.
  destruct (opt_truthy path); [|reflexivity].
  destruct (str.startswith "/" (opt_get path)); [exact H|].
  cbn [append str.has_char]. rewrite H.
  destruct (Ascii.eqb_spec "/" c) as [E|_]; [now elim N | reflexivity].
Qed.

Lemma unparse_query_has_char (c : ascii) (query : option dict) :
  c <> "?"%char -> is_quoted_char c || char_in "&=" c = false ->
  str.has_char c (unparse_query query) = false.
Proof.
  intros N H. unfold unparse_query.
  destruct query as [q|]; [|reflexivity]. destruct (nonempty q); [|reflexivity].
  cbn [append str.has_char]. rewrite (urlencode_has_char _ _ H).
  destruct (Ascii.eqb_spec "?" c) as [E|_]; [now elim N | reflexivity].
Qed.

(** ** Decoding what was encoded *)

Lemma unquote_to_bytes_percent (c : ascii) (rest : string) :
  unquote_to_bytes (percent_byte c ++ rest) = String c (unquote_to_bytes rest).
Proof. destruct c as [[] [] [] [] [] [] [] []]; reflexivity. Qed.

(** Percent-decoding gives back the bytes that [quote] encoded. *)
Lemma unquote_to_bytes_quote (s safe : string) :
  str.has_char "%" safe = false -> unquote_to_bytes (quote s safe) = s.
Proof.
  intros Hs. induction s as [|c s IH]; [reflexivity|]. cbn [quote].
  destruct (is_always_safe c || char_in safe c) eqn:E.
  - cbn [append unquote_to_bytes].
    destruct (Ascii.eqb_spec c "%") as [->|_].
    + unfold char_in in E. rewrite Hs in E. discriminate.
    + now rewrite IH.
  - now rewrite unquote_to_bytes_percent, IH.
Qed.

Lemma utf8_decode_ascii (s : string) :
  all_chars is_ascii s = true -> utf8_decode_replace Utf8Start s = s.
Proof.
  induction s as [|c s IH]; [reflexivity|]. cbn [all_chars]. intros H.
  apply andb_true_iff in H as [Hc Hs]. cbn [utf8_decode_replace].
  unfold utf8_lead. unfold is_ascii in Hc. rewrite Hc. cbn [append].
  now rewrite IH.
Qed.

Lemma unquote_runs_ascii (s run : string) :
  all_chars is_ascii s = true ->
  unquote_runs s run = utf8_decode_replace Utf8Start (unquote_to_bytes (run ++ s)).
Proof.
  revert run; induction s as [|c s IH]; intros run H; cbn [unquote_runs].
  - now rewrite app_nil_r.
  - cbn [all_chars] in H. apply andb_true_iff in H as [Hc Hs].
    rewrite Hc, (IH _ Hs), app_assoc. reflexivity.
Qed.

Lemma always_safe_ascii (x : ascii) :
  is_always_safe x = true -> is_ascii x = true.
Proof.
  destruct x as [[] [] [] [] [] [] [] []]; intros H;
    try reflexivity; vm_compute in H; discriminate H.
Qed.

Lemma has_char_all_chars (p : ascii -> bool) (c : ascii) (s : string) :
  all_chars p s = true -> str.has_char c s = true -> p c = true.
Proof.
  induction s as [|a s IH]; simpl; [discriminate|].
  intros H I. apply andb_true_iff in H as [Ha Hs].
  destruct (Ascii.eqb_spec a c) as [<-|_]; [exact Ha | now apply IH].
Qed.

(** [quote] with ASCII safe characters writes ASCII. *)
Lemma quote_ascii (s safe : string) :
  all_chars is_ascii safe = true -> all_chars is_ascii (quote s safe) = true.
Proof.
  intros Hs. eapply all_chars_impl; [|apply quote_chars with (safe := safe)].
  intros x H. cbv beta in H.
  destruct (is_always_safe x) eqn:A; [now apply always_safe_ascii|].
  destruct (char_in safe x) eqn:C; [exact (has_char_all_chars _ _ _ Hs C)|].
  cbn in H. now apply Ascii.eqb_eq in H as ->.
Qed.

(** A text in which [quote] wrote no [%] was left as it stood. *)
Lemma quote_no_percent (s safe : string) :
  str.has_char "%" (quote s safe) = false -> quote s safe = s.
Proof.
  induction s as [|c s IH]; [reflexivity|]. cbn [quote].
  destruct (is_always_safe c || char_in safe c).
  - cbn [append str.has_char]. intros H. apply orb_false_iff in H as [_ H].
    now rewrite IH.
  - unfold percent_byte. cbn [append str.has_char].
    rewrite Ascii.eqb_refl. discriminate.
Qed.

(** [unquote] gives back an ASCII text that [quote] encoded. *)
Lemma unquote_quote (s safe : string) :
  all_chars is_ascii s = true -> all_chars is_ascii safe = true ->
  str.has_char "%" safe = false ->
  unquote (quote s safe) = s.
Proof.
  intros A As P. unfold unquote.
  destruct (str.has_char "%" (quote s safe)) eqn:E; cbn [negb].
  - rewrite (unquote_runs_ascii _ _ (quote_ascii s safe As)). cbn [append].
    now rewrite (unquote_to_bytes_quote _ _ P), utf8_decode_ascii.
  - now apply quote_no_percent.
Qed.

Lemma replace_char_absent (c d : ascii) (s : string) :
  str.has_char c s = false -> str.replace_char c d s = s.
Proof.
  induction s as [|a s IH]; simpl; [reflexivity|].
  intros H. apply orb_false_iff in H as [Ha Hs]. now rewrite Ha, IH.
Qed.

Lemma replace_char_back (c d : ascii) (s : string) :
  str.has_char d s = false ->
  str.replace_char d c (str.replace_char c d s) = s.
Proof.
  induction s as [|a s IH]; simpl; [reflexivity|].
  intros H. apply orb_false_iff in H as [Ha Hs]. rewrite (IH Hs). f_equal.
  destruct (Ascii.eqb_spec a c) as [->|N].
  - now rewrite Ascii.eqb_refl.
  - now rewrite Ha.
Qed.

Lemma quote_no_plus (s safe : string) :
  str.has_char "+" safe = false -> str.has_char "+" (quote s safe) = false.
Proof.
  intros Hs. apply (all_chars_has_char _ _ _ (quote_chars s safe)).
  unfold char_in. now rewrite Hs.
Qed.

(** What [parse_qsl] does to a name or a value undoes [quote_plus] on an
    ASCII text. *)
Lemma quote_plus_roundtrip (s : string) :
  all_chars is_ascii s = true ->
  unquote (str.replace_char "+" " " (quote_plus s)) = s.
Proof.
  intros A. unfold quote_plus. destruct (negb (str.has_char " " s)).
  - rewrite (replace_char_absent _ _ _ (quote_no_plus s "" eq_refl)).
    now apply unquote_quote.
  - rewrite (replace_char_back _ _ _ (quote_no_plus s " " eq_refl)).
    now apply unquote_quote.
Qed.

Lemma quote_truthy (s safe : string) :
  str_truthy s = true -> str_truthy (quote s safe) = true.
Proof.
  destruct s as [|c s]; [discriminate|]. intros _. cbn [quote].
  apply truthy_app_l. now destruct (is_always_safe c || char_in safe c).
Qed.

Lemma quote_plus_truthy (s : string) :
  str_truthy s = true -> str_truthy (quote_plus s) = true.
Proof.
  intros H. unfold quote_plus. destruct (negb (str.has_char " " s));
    [|rewrite replace_char_truthy]; now apply quote_truthy.
Qed.

(** ** Parsing an encoded query *)

Lemma split_char_absent (c : ascii) (s : string) :
  str.has_char c s = false -> str.split_char c s = [s].
Proof.
  induction s as [|a s IH]; simpl; [reflexivity|].
  intros H. apply orb_false_iff in H as [Ha Hs]. now rewrite Ha, (IH Hs).
Qed.

Lemma split_char_app (c : ascii) (x rest : string) :
  str.has_char c x = false ->
  str.split_char c (x ++ String c rest) = x :: str.split_char c rest.
Proof.
  induction x as [|a x IH]; simpl.
  - intros _. now rewrite Ascii.eqb_refl.
  - intros H. apply orb_false_iff in H as [Ha Hx]. now rewrite Ha, (IH Hx).
Qed.

(** Splitting a joined list gives the list back when no element holds the
    separator. *)
Lemma split_char_concat (c : ascii) (l : list string) :
  l <> [] -> (forall x, In x l -> str.has_char c x = false) ->
  str.split_char c (concat (String c "") l) = l.
Proof.
  induction l as [|x l IH]; intros N H; [contradiction|].
  destruct l as [|y l].
  - cbn [concat]. apply split_char_absent, H. now left.
  - change (concat (String c "") (x :: y :: l))
      with (x ++ String c (concat (String c "") (y :: l))).
    rewrite split_char_app by (apply H; now left).
    f_equal. apply IH; [discriminate|]. intros z Hz. apply H. now right.
Qed.

(** One encoded field is read back as the pair it was made from. *)
Lemma parse_qsl_field_encoded (k x : string) :
  all_chars is_ascii k = true -> all_chars is_ascii x = true ->
  str_truthy x = true ->
  parse_qsl_field (quote_plus k ++ "=" ++ quote_plus x) = [(k, x)].
Proof.
  intros Ak Ax T. unfold parse_qsl_field.
  rewrite (truthy_app_r (quote_plus k) ("=" ++ quote_plus x) eq_refl).
  cbn [negb].
  change (quote_plus k ++ "=" ++ quote_plus x)
    with (quote_plus k ++ String "=" (quote_plus x)).
  rewrite (split1_app "=" _ _ (quote_plus_has_char "=" k eq_refl)).
  cbn [str.split1]. rewrite Ascii.eqb_refl, app_nil_r.
  now rewrite (quote_plus_truthy _ T), !quote_plus_roundtrip.
Qed.

(** [parse_qsl] reads back the pairs that [urlencode] wrote, when they are
    ASCII texts and no value is empty. *)
Lemma parse_qsl_urlencode (q : dict) :
  q <> [] ->
  (forall k x, In (k, x) q ->
     all_chars is_ascii k = true /\ all_chars is_ascii x = true /\
     str_truthy x = true) ->
  parse_qsl (urlencode q) = q.
Proof.
  intros N H. unfold parse_qsl, urlencode, str.join.
  rewrite split_char_concat.
  - clear N. induction q as [|[k x] q IH]; [reflexivity|].
    cbn [map flat_map fst snd].
    destruct (H k x (or_introl eq_refl)) as (Ak & Ax & T).
    rewrite (parse_qsl_field_encoded _ _ Ak Ax T). cbn [app]. f_equal.
    apply IH. intros k' x' I. apply H. now right.
  - destruct q; [contradiction | discriminate].
  - intros f I. apply in_map_iff in I as ([k x] & <- & _). cbn [fst snd].
    rewrite !has_char_app, !(quote_plus_has_char "&" _ eq_refl). reflexivity.
Qed.

Lemma dict_set_fresh (d : dict) (k v : string) :
  ~ In k (map fst d) -> dict_set d k v = (d ++ [(k, v)])%list.
Proof.
  induction d as [|[k' v'] d IH]; simpl; intros N; [reflexivity|].
  destruct (String.eqb_spec k' k) as [E|_]; [elim N; now left|].
  rewrite IH; [reflexivity|]. intros I. apply N. now right.
Qed.

Lemma dict_fold_fresh (pairs : list (string * string)) (d : dict) :
  NoDup (map fst (d ++ pairs)%list) ->
  fold_left (fun d kv => dict_set d (fst kv) (snd kv)) pairs d
  = (d ++ pairs)%list.
Proof.
  revert d; induction pairs as [|[k v] pairs IH]; intros d H; cbn [fold_left].
  - now rewrite List.app_nil_r.
  - cbn [fst snd]. rewrite dict_set_fresh.
    + rewrite IH; rewrite <- List.app_assoc; [reflexivity | exact H].
    + rewrite map_app in H. cbn [map fst] in H.
      apply NoDup_remove_2 in H. intros I. apply H, in_or_app. now left.
Qed.

(** [dict(pairs)] is the list of the pairs when their keys are distinct. *)
Lemma dict_of_pairs_id (pairs : list (string * string)) :
  NoDup (map fst pairs) -> dict_of_pairs pairs = pairs.
Proof. intros H. unfold dict_of_pairs. now rewrite dict_fold_fresh. Qed.

Lemma urlencode_truthy (q : dict) :
  nonempty q = true -> str_truthy (urlencode q) = true.
Proof.
  destruct q as [|[k x] q]; [discriminate|]. intros _.
  unfold urlencode, str.join. cbn [map concat fst snd].
  destruct (map _ q); [|apply truthy_app_l]; now apply truthy_app_r.
Qed.

(** The raw query of the composed string is the encoded mapping. *)
Lemma unparse_query_segment (did : string) (path0 : option string)
  (query0 : option dict) (fragment0 : pyobj) :
  str.has_char "#" did = false -> str.has_char "?" did = false ->
  str.has_char "#" (opt_get path0) = false ->
  str.has_char "?" (opt_get path0) = false ->
  query_segment (unparse_value did path0 query0 fragment0) =
  match query0 with
  | Some q => if nonempty q then urlencode q else ""
  | None => ""
  end.
Proof.
  intros Hd Qd Hp Qp. rewrite unparse_value_parts.
  assert (A : "#"%char <> "/"%char) by discriminate.
  assert (B : "?"%char <> "/"%char) by discriminate.
  assert (XH : str.has_char "#" (did ++ unparse_path path0) = false)
    by now rewrite has_char_app, Hd, (unparse_path_has_char "#" path0 A Hp).
  assert (XQ : str.has_char "?" (did ++ unparse_path path0) = false)
    by now rewrite has_char_app, Qd, (unparse_path_has_char "?" path0 B Qp).
  rewrite <- (app_assoc did). revert XH XQ.
  generalize (did ++ unparse_path path0). intros X XH XQ.
  assert (T : forall enc F,
    str.has_char "#" enc = false ->
    F = "" \/ (exists f, F = String "#" f) ->
    query_segment (X ++ String "?" enc ++ F) = enc).
  { intros enc F He HF.
    assert (N : str.has_char "#" (X ++ String "?" enc) = false).
    { rewrite has_char_app, XH. cbn [str.has_char]. now rewrite He. }
    destruct HF as [->|[f ->]]; unfold query_segment.
    - rewrite app_nil_r, (split_off_absent "#" _ N). cbn [fst].
      now rewrite (split_off_at "?" _ _ XQ).
    - change (X ++ String "?" enc ++ String "#" f)
        with (X ++ (String "?" enc) ++ String "#" f).
      rewrite <- app_assoc, (split_off_at "#" _ f N). cbn [fst].
      now rewrite (split_off_at "?" _ _ XQ). }
  assert (T0 : forall F,
    F = "" \/ (exists f, F = String "#" f) -> query_segment (X ++ F) = "").
  { intros F [->|[f ->]]; unfold query_segment.
    - rewrite app_nil_r, (split_off_absent _ _ XH). cbn [fst].
      now rewrite (split_off_absent _ _ XQ).
    - rewrite (split_off_at _ _ _ XH). cbn [fst].
      now rewrite (split_off_absent _ _ XQ). }
  assert (FF : unparse_fragment fragment0 = "" \/
               exists f, unparse_fragment fragment0 = String "#" f).
  { unfold unparse_fragment.
    destruct (truthy fragment0); [right; now exists (py_str fragment0) | now left]. }
  unfold unparse_query. destruct query0 as [q|]; [destruct (nonempty q)|].
  - apply T; [|exact FF]. now apply urlencode_has_char.
  - now apply T0.
  - now apply T0.
Qed.

(** ** The path of a composed string *)

Lemma path_segment_app (p r : string) :
  str.has_char "#" p = false -> str.has_char "?" p = false ->
  after_path r -> path_segment (p ++ r) = p.
Proof.
  intros H Q [->|[[r' ->]|[r' ->]]]; unfold path_segment.
  - rewrite app_nil_r, (split_off_absent "#" _ H). cbn [fst].
    now rewrite (split_off_absent "?" _ Q).
  - rewrite (split_off_app "#" _ _ H). cbn [fst].
    assert (E : fst (split_off "#" (String "?" r')) =
                String "?" (fst (split_off "#" r'))).
    { unfold split_off. cbn [str.split1].
      replace (Ascii.eqb "?" "#") with false by reflexivity.
      now destruct (str.split1 "#" r') as [[l r]|]. }
    rewrite E. now rewrite (split_off_at "?" _ _ Q).
  - rewrite (split_off_at "#" _ _ H). cbn [fst].
    now rewrite (split_off_absent "?" _ Q).
Qed.

(** What [unparse] writes after the path, without tabs, carriage returns
    and line feeds, is empty or begins with [?] or [#]. *)
Lemma unparse_tail_after_path (query0 : option dict) (fragment0 : pyobj) :
  after_path (remove_unsafe (unparse_query query0 ++ unparse_fragment fragment0)).
Proof.
  unfold unparse_query, unparse_fragment, after_path.
  destruct query0 as [[|kv q]|]; cbn [nonempty append];
    try (destruct (truthy fragment0); [right; right; eexists; reflexivity| now left]).
  right; left. eexists. reflexivity.
Qed.

(** Two slashes at the front of a text followed by such a tail are two
    slashes at the front of the text. *)
Lemma startswith2_app (p r : string) :
  after_path r -> prefix "//" p = false -> prefix "//" (p ++ r) = false.
Proof.
  intros A H. destruct p as [|a [|b p]].
  - now destruct A as [->|[[r' ->]|[r' ->]]].
  - cbn [append]. cbn [prefix].
    destruct (ascii_dec "/" a); [|reflexivity].
    now destruct A as [->|[[r' ->]|[r' ->]]].
  - cbn [append prefix] in *. destruct (ascii_dec "/" a); [|reflexivity].
    destruct (ascii_dec "/" b); [|reflexivity].
    now destruct p.
Qed.

(** ** Outcomes of parsing, for any patterns *)

Section Outcomes.

Variable DID_URL_DID_PART_PATTERN : string -> option string.
Variable DID_URL_RELATIVE_FRONT : string -> bool.
Variable unicodedata_normalize_NFKC : string -> string.

Local Abbreviation _checknetloc := (_checknetloc unicodedata_normalize_NFKC).
Local Abbreviation urlsplit := (urlsplit unicodedata_normalize_NFKC).
Local Abbreviation urlparse := (urlparse unicodedata_normalize_NFKC).
Local Abbreviation __init__ :=
  (__init__ DID_URL_DID_PART_PATTERN DID_URL_RELATIVE_FRONT unicodedata_normalize_NFKC).
Local Abbreviation parse :=
  (parse DID_URL_DID_PART_PATTERN DID_URL_RELATIVE_FRONT unicodedata_normalize_NFKC).
Local Abbreviation unparse :=
  (unparse DID_URL_DID_PART_PATTERN DID_URL_RELATIVE_FRONT unicodedata_normalize_NFKC).
Local Abbreviation as_absolute :=
  (as_absolute DID_URL_DID_PART_PATTERN DID_URL_RELATIVE_FRONT unicodedata_normalize_NFKC).
Local Abbreviation is_valid :=
  (is_valid DID_URL_DID_PART_PATTERN DID_URL_RELATIVE_FRONT unicodedata_normalize_NFKC).

(** The object that [__init__] builds from the parts of the URL. *)
Local Abbreviation built s self_did parts :=
  {| text := s; did := self_did;
     path := or_None (ParseResult.path parts);
     query := if str_truthy (ParseResult.query parts)
              then Some (dict_of_pairs (parse_qsl (ParseResult.query parts)))
              else None;
     fragment := or_None (ParseResult.fragment parts) |}.

Lemma checknetloc_ValueError (netloc : string) (e : exn) :
  _checknetloc netloc = Raise e -> exists m, e = ValueError m.
Proof.
  unfold _checknetloc.
  repeat match goal with |- context [if ?b then _ else _] => destruct b end;
    intros H; try discriminate; injection H as <-; eauto.
Qed.

Lemma urlsplit_ValueError (url : string) (e : exn) :
  urlsplit url = Raise e -> exists m, e = ValueError m.
Proof.
  unfold urlsplit.
  destruct (split_scheme _) as [sch u3].
  assert (T : forall netloc u,
    (let '(url1, fragment) := split_off "#" u in
     let '(url2, query) := split_off "?" url1 in
     let* _ := _checknetloc netloc in
     Ok (SplitResult.mk sch netloc url2 query fragment)) = Raise e ->
    exists m, e = ValueError m).
  { intros netloc u. destruct (split_off "#" u) as [url1 fragment].
    destruct (split_off "?" url1) as [url2 query].
    destruct (_checknetloc netloc) eqn:C; cbn [bind]; [discriminate|].
    intros H; injection H as <-. exact (checknetloc_ValueError _ _ C). }
  destruct (str.startswith "//" u3); [|cbn [bind]; apply T].
  destruct (_splitnetloc u3) as [netloc u4].
  match goal with |- context [if ?b then Raise _ else _] => destruct b end;
    cbn [bind]; [|apply T].
  intros H; injection H as <-; eauto.
Qed.

Lemma urlparse_ValueError (url : string) (e : exn) :
  urlparse url = Raise e -> exists m, e = ValueError m.
Proof.
  unfold urlparse. destruct (urlsplit url) as [r|] eqn:E; cbn [bind].
  - destruct r as [sch nl p q f].
    match goal with |- context [if ?b then _ else _] => destruct b end;
      [destruct (_splitparams p)|]; discriminate.
  - intros H; injection H as <-. exact (urlsplit_ValueError _ _ E).
Qed.

(** The constructor on a string, case by case on the first pattern. *)
Lemma init_unfold (s : string) :
  __init__ (PyStr s) =
  match DID_URL_DID_PART_PATTERN s with
  | Some d =>
      let* pieces := str.split d s in
      let* (_, url_component) := unpack2 pieces in
      let* parts := urlparse url_component in
      Ok (built s (Some d) parts)
  | None =>
      if DID_URL_RELATIVE_FRONT s
      then let* parts := urlparse s in Ok (built s None parts)
      else Raise (InvalidDIDUrlError
                    (s ++ " is not a valid absolute or relative DID URL"))
  end.
Proof.
  unfold __init__. destruct (DID_URL_DID_PART_PATTERN s) as [d|].
  - destruct (str.split d s) as [pieces|]; cbn [bind]; [|reflexivity].
    destruct (unpack2 pieces) as [[a uc]|]; reflexivity.
  - destruct (DID_URL_RELATIVE_FRONT s); reflexivity.
Qed.

Lemma built_raises (s : string) (self_did : option string) (u : string) (e : exn) :
  (let* parts := urlparse u in Ok (built s self_did parts)) = Raise e ->
  exists m, e = ValueError m.
Proof.
  destruct (urlparse u) eqn:E; cbn [bind]; [discriminate|].
  intros H; injection H as <-. exact (urlparse_ValueError _ _ E).
Qed.

(** What the constructor raises on a string: a plain [ValueError], or the
    [InvalidDIDUrlError] of a string that neither pattern matches. *)
Lemma init_raise_cases (s : string) (e : exn) :
  __init__ (PyStr s) = Raise e ->
  (exists m, e = ValueError m) \/
  (DID_URL_DID_PART_PATTERN s = None /\ DID_URL_RELATIVE_FRONT s = false /\
   e = InvalidDIDUrlError (s ++ " is not a valid absolute or relative DID URL")).
Proof.
  rewrite init_unfold. destruct (DID_URL_DID_PART_PATTERN s) as [d|].
  - intros H. left. revert H. unfold str.split. destruct d as [|c d]; cbn [bind].
    + intros H; injection H as <-; eauto.
    + destruct (str.split_scan (String c d) s 0 "") as [|x [|y [|z l]]];
        cbn [unpack2 bind]; try (intros H; injection H as <-; eauto; fail).
      apply built_raises.
  - destruct (DID_URL_RELATIVE_FRONT s).
    + intros H. left. exact (built_raises _ _ _ _ H).
    + intros H; injection H as <-. now right.
Qed.

(** X1: on a string, [parse] raises [InvalidDIDUrlError] exactly when
    neither pattern matches, with the message built from the string; it
    never raises [TypeError].  On anything but a string it raises
    [TypeError]. *)
Theorem parse_error_kinds :
  (forall s msg,
     parse (PyStr s) = Raise (InvalidDIDUrlError msg) <->
     DID_URL_DID_PART_PATTERN s = None /\ DID_URL_RELATIVE_FRONT s = false /\
     msg = s ++ " is not a valid absolute or relative DID URL") /\
  (forall s m, parse (PyStr s) <> Raise (TypeError m)) /\
  (forall url, (forall s, url <> PyStr s) ->
     parse url = Raise (TypeError "expected string or bytes-like object")).
Proof.
  unfold parse. split; [intros s msg; split | split].
  - intros H. destruct (init_raise_cases _ _ H) as [[m E]|(P & R & E)];
      [discriminate | now injection E as ->].
  - intros (P & R & ->). rewrite init_unfold, P, R. reflexivity.
  - intros s m H. destruct (init_raise_cases _ _ H) as [[m' E]|(_ & _ & E)];
      discriminate.
  - intros url N. destruct url as [|s|n]; try reflexivity. now elim (N s).
Qed.

Hypothesis pattern_prefix : forall url d,
  DID_URL_DID_PART_PATTERN url = Some d -> d <> "" /\ prefix d url = true.

(** The constructor on a string, with the split replaced by what it
    comes to. *)
Lemma init_by_slicing (s : string) :
  __init__ (PyStr s) =
  match DID_URL_DID_PART_PATTERN s with
  | Some d =>
      if str.contains d (drop (String.length d) s)
      then Raise (ValueError "too many values to unpack (expected 2)")
      else let* parts := urlparse (drop (String.length d) s) in
           Ok (built s (Some d) parts)
  | None =>
      if DID_URL_RELATIVE_FRONT s
      then let* parts := urlparse s in Ok (built s None parts)
      else Raise (InvalidDIDUrlError
                    (s ++ " is not a valid absolute or relative DID URL"))
  end.
Proof.
  rewrite init_unfold.
  destruct (DID_URL_DID_PART_PATTERN s) as [d|] eqn:P; [|reflexivity].
  destruct (pattern_prefix _ _ P) as [N Pre].
  rewrite (prefix_drop _ _ Pre) at 1.
  destruct (str.contains d (drop (String.length d) s)) eqn:C.
  - destruct (split_unpack_repeat _ _ N C) as (pieces & -> & U).
    cbn [bind]. now rewrite U.
  - now rewrite (split_front_once _ _ N C).
Qed.

(** X2: the literal split behaves as a slice at the end of the match unless
    the DID text occurs again.  On a string that the first pattern matches,
    [parse] raises the [ValueError] of the unpacking when the DID text
    occurs in the text after it, and otherwise goes on with exactly that
    text; on any other string it goes on with the whole string when the
    second pattern matches. *)
Theorem parse_by_slicing (s : string) :
  parse (PyStr s) =
  match DID_URL_DID_PART_PATTERN s with
  | Some d =>
      if str.contains d (drop (String.length d) s)
      then Raise (ValueError "too many values to unpack (expected 2)")
      else let* parts := urlparse (drop (String.length d) s) in
           Ok (built s (Some d) parts)
  | None =>
      if DID_URL_RELATIVE_FRONT s
      then let* parts := urlparse s in Ok (built s None parts)
      else Raise (InvalidDIDUrlError
                    (s ++ " is not a valid absolute or relative DID URL"))
  end.
Proof. exact (init_by_slicing s). Qed.

(** X3: the DID of a parsed DIDUrl is what the first pattern finds in the
    string.  When there is one, the string is that DID followed by a text
    in which the DID does not occur; when there is none, the second pattern
    matches the string. *)
Theorem parsed_did (s : string) (v : DIDUrl) :
  parse (PyStr s) = Ok v ->
  did v = DID_URL_DID_PART_PATTERN s /\
  match DID_URL_DID_PART_PATTERN s with
  | Some d =>
      s = d ++ drop (String.length d) s /\
      str.contains d (drop (String.length d) s) = false
  | None => DID_URL_RELATIVE_FRONT s = true
  end.
Proof.
  unfold parse. rewrite init_by_slicing.
  destruct (DID_URL_DID_PART_PATTERN s) as [d|] eqn:P.
  - destruct (pattern_prefix _ _ P) as [N Pre].
    destruct (str.contains d (drop (String.length d) s)); [discriminate|].
    destruct (urlparse _); cbn [bind]; [|discriminate].
    intros H; injection H as <-. cbn. auto using prefix_drop.
  - destruct (DID_URL_RELATIVE_FRONT s); [|discriminate].
    destruct (urlparse _); cbn [bind]; [|discriminate].
    intros H; injection H as <-. cbn. auto.
Qed.

Lemma split_scheme_suffix (u sch u' : string) :
  split_scheme u = (sch, u') -> exists pre, u = pre ++ u'.
Proof.
  unfold split_scheme. destruct (str.split1 ":" u) as [[before after]|] eqn:E.
  - destruct (str_truthy before && all_chars is_scheme_char before);
      intros H; injection H as <- <-; [|now exists ""].
    destruct (split1_some _ _ _ _ E) as [-> _]. exists (before ++ ":").
    now rewrite app_assoc.
  - intros H; injection H as <- <-. now exists "".
Qed.

(** Without two slashes in a row there is no network location, and
    [urlsplit] raises nothing. *)
Lemma urlsplit_no_netloc (u : string) :
  str.contains "//" (remove_unsafe u) = false ->
  exists r, urlsplit u = Ok r /\ SplitResult.netloc r = "".
Proof.
  intros H. unfold urlsplit.
  destruct (lstrip_spec is_c0_control_or_space u) as (pre & E & _).
  rewrite E, remove_unsafe_app in H. apply contains_app_r_false in H.
  revert H. generalize (remove_unsafe (str.lstrip is_c0_control_or_space u)).
  intros u2 H.
  destruct (split_scheme u2) as [sch u3] eqn:S.
  destruct (split_scheme_suffix _ _ _ S) as [pre' ->].
  apply contains_app_r_false in H.
  destruct (str.startswith "//" u3) eqn:St.
  - unfold str.startswith in St. now rewrite (contains_prefix _ _ St) in H.
  - cbn [bind]. destruct (split_off "#" u3) as [url1 fragment].
    destruct (split_off "?" url1) as [url2 query].
    cbn. eauto.
Qed.

Lemma urlparse_no_netloc (u : string) :
  str.contains "//" (remove_unsafe u) = false ->
  exists parts, urlparse u = Ok parts.
Proof.
  intros H. destruct (urlsplit_no_netloc _ H) as (r & E & _).
  unfold urlparse. rewrite E. cbn [bind]. destruct r as [sch nl p q f].
  match goal with |- context [if ?b then _ else _] => destruct b end;
    [destruct (_splitparams p)|]; eauto.
Qed.

(** X4: a string is accepted when the first pattern finds a DID that does
    not occur again, or else the second pattern matches, and the text after
    the DID (the whole string when there is none) has no two slashes in a
    row once tabs, carriage returns and line feeds are removed.  [parse]
    then succeeds, with the DID that the pattern finds, and [is_valid]
    returns [True]. *)
Theorem parse_accepts (s : string) :
  match DID_URL_DID_PART_PATTERN s with
  | Some d =>
      str.contains d (drop (String.length d) s) = false /\
      str.contains "//" (remove_unsafe (drop (String.length d) s)) = false
  | None =>
      DID_URL_RELATIVE_FRONT s = true /\
      str.contains "//" (remove_unsafe s) = false
  end ->
  exists v,
    parse (PyStr s) = Ok v /\ text v = s /\
    did v = DID_URL_DID_PART_PATTERN s /\
    is_valid (PyStr s) = Ok true.
Proof.
  unfold is_valid, validate, parse. rewrite init_by_slicing.
  destruct (DID_URL_DID_PART_PATTERN s) as [d|] eqn:P; intros [A B].
  - rewrite A. destruct (urlparse_no_netloc _ B) as [parts ->]. cbn [bind].
    eexists; repeat split.
  - rewrite A. destruct (urlparse_no_netloc _ B) as [parts ->]. cbn [bind].
    eexists; repeat split.
Qed.

(** X5: the query of a parsed DIDUrl, when present, has distinct keys:
    a key written several times in the query string has one entry. *)
Theorem parsed_query_keys_distinct (s : string) (v : DIDUrl) (q : dict) :
  parse (PyStr s) = Ok v -> query v = Some q -> NoDup (map fst q).
Proof.
  intros H Q.
  destruct (init_ok DID_URL_DID_PART_PATTERN DID_URL_RELATIVE_FRONT
              unicodedata_normalize_NFKC _ _ H)
    as (uc & parts & _ & _ & _ & _ & E & _).
  rewrite E in Q. destruct (str_truthy (ParseResult.query parts)); [|discriminate].
  injection Q as <-. apply dict_of_pairs_NoDup.
Qed.

(** X6: the query of a parsed DIDUrl holds no empty value: a field of the
    query string without a value is left out of the mapping. *)
Theorem parsed_query_values_nonempty (s : string) (v : DIDUrl) (q : dict)
  (k x : string) :
  parse (PyStr s) = Ok v -> query v = Some q -> In (k, x) q -> x <> "".
Proof.
  intros H Q I.
  destruct (init_ok DID_URL_DID_PART_PATTERN DID_URL_RELATIVE_FRONT
              unicodedata_normalize_NFKC _ _ H)
    as (uc & parts & _ & _ & _ & _ & E & _).
  rewrite E in Q. destruct (str_truthy (ParseResult.query parts)); [|discriminate].
  injection Q as <-. apply dict_of_pairs_In, parse_qsl_values in I.
  now destruct x.
Qed.

Lemma urlsplit_tail_parts (sch netloc u : string) (r : SplitResult.t) :
  (let '(url1, fragment) := split_off "#" u in
   let '(url2, query) := split_off "?" url1 in
   let* _ := _checknetloc netloc in
   Ok (SplitResult.mk sch netloc url2 query fragment)) = Ok r ->
  r = SplitResult.mk sch netloc (path_segment u) (query_segment u)
        (fragment_segment u).
Proof.
  unfold path_segment, query_segment, fragment_segment.
  destruct (split_off "#" u) as [url1 fragment]. cbn [fst snd].
  destruct (split_off "?" url1) as [url2 query]. cbn [fst snd].
  destruct (_checknetloc netloc); cbn [bind]; [|discriminate].
  intros H. now injection H as <-.
Qed.

(** [urlsplit] on a text that is empty or begins with [/], [?] or [#]:
    there is no scheme, and the path is empty or begins with a slash. *)
Lemma urlsplit_fronted (u : string) (r : SplitResult.t) :
  fronted u = true -> urlsplit u = Ok r ->
  SplitResult.scheme r = "" /\
  (SplitResult.path r = "" \/ exists w, SplitResult.path r = String "/" w).
Proof.
  intros F. unfold urlsplit. rewrite (fronted_lstrip _ F).
  apply fronted_remove_unsafe in F. revert F.
  generalize (remove_unsafe u). intros u2 F.
  rewrite (fronted_split_scheme _ F).
  destruct (str.startswith "//" u2).
  - destruct (_splitnetloc u2) as [netloc u4] eqn:N.
    unfold _splitnetloc in N. destruct (span_spec _ _ _ _ N) as (_ & _ & R).
    assert (F4 : fronted u4 = true).
    { destruct u4 as [|c w]; [reflexivity|]. cbn [fronted].
      now apply negb_false_iff in R. }
    match goal with |- context [if ?b then Raise _ else _] => destruct b end;
      cbn [bind]; [discriminate|].
    intros H. rewrite (urlsplit_tail_parts _ _ _ _ H). cbn.
    split; [reflexivity | now apply path_segment_fronted].
  - cbn [bind]. intros H. rewrite (urlsplit_tail_parts _ _ _ _ H). cbn.
    split; [reflexivity | now apply path_segment_fronted].
Qed.

Lemma urlparse_fronted (u : string) (parts : ParseResult.t) :
  fronted u = true -> urlparse u = Ok parts ->
  ParseResult.path parts = "" \/
  exists w, ParseResult.path parts = String "/" w.
Proof.
  intros F. unfold urlparse.
  destruct (urlsplit u) as [r|] eqn:E; cbn [bind]; [|discriminate].
  destruct (urlsplit_fronted _ _ F E) as [S P].
  destruct r as [sch nl p q f]. cbn in S, P. subst sch.
  destruct (existsb (String.eqb "") uses_params && str.has_char ";" p) eqn:C.
  - destruct P as [->|[w ->]]; [discriminate|].
    destruct (splitparams_front w) as [w' E'].
    destruct (_splitparams (String "/" w)) as [p' params]. cbn in E'. subst p'.
    intros H; injection H as <-. cbn. eauto.
  - intros H; injection H as <-. exact P.
Qed.

(** X7: when the text after the DID (the whole string when there is no
    DID) is empty or begins with [/], [?] or [#], the path of the parsed
    DIDUrl is absent or begins with a slash. *)
Theorem parsed_path_slash (s : string) (v : DIDUrl) :
  parse (PyStr s) = Ok v ->
  fronted match DID_URL_DID_PART_PATTERN s with
          | Some d => drop (String.length d) s
          | None => s
          end = true ->
  path v = None \/ exists w, path v = Some (String "/" w).
Proof.
  unfold parse. rewrite init_by_slicing.
  assert (T : forall self_did u,
    fronted u = true ->
    (let* parts := urlparse u in Ok (built s self_did parts)) = Ok v ->
    path v = None \/ exists w, path v = Some (String "/" w)).
  { intros self_did u F. destruct (urlparse u) as [parts|] eqn:E; cbn [bind];
      [|discriminate].
    intros H; injection H as <-. cbn.
    destruct (urlparse_fronted _ _ F E) as [->|[w ->]]; cbn; eauto. }
  destruct (DID_URL_DID_PART_PATTERN s) as [d|].
  - destruct (str.contains d (drop (String.length d) s)); [discriminate|].
    intros H F. exact (T _ _ F H).
  - destruct (DID_URL_RELATIVE_FRONT s); [|discriminate].
    intros H F. exact (T _ _ F H).
Qed.

Hypothesis pattern_no_delimiter : forall url d,
  DID_URL_DID_PART_PATTERN url = Some d ->
  str.has_char "#" d = false /\ str.has_char "?" d = false.

(** The part of the composed string before the fragment holds no [#] when
    neither the DID nor the path does. *)
Lemma unparse_front_no_hash (did : string) (path : option string)
  (query : option dict) :
  str.has_char "#" did = false -> str.has_char "#" (opt_get path) = false ->
  str.has_char "#" (did ++ unparse_path path ++ unparse_query query) = false.
Proof.
  intros Hd Hp.
  assert (A : "#"%char <> "/"%char) by discriminate.
  assert (B : "#"%char <> "?"%char) by discriminate.
  rewrite !has_char_app, Hd, (unparse_path_has_char "#" path A Hp),
    (unparse_query_has_char "#" query B eq_refl).
  reflexivity.
Qed.

(** X8: composing and parsing again gives the fragment back.  When
    [unparse] succeeds on a DID and a path without [#], the fragment of the
    result is the text of the [fragment] argument, without its tabs,
    carriage returns and line feeds, when the argument is true, and is
    absent when the argument is false. *)
Theorem unparse_fragment_roundtrip (did : string) (path : option string)
  (query : option dict) (fragment0 : pyobj) (v : DIDUrl) :
  unparse did path query fragment0 = Ok v ->
  str.has_char "#" did = false -> str.has_char "#" (opt_get path) = false ->
  fragment v = if truthy fragment0
               then or_None (remove_unsafe (py_str fragment0))
               else None.
Proof.
  intros H Hd Hp. unfold unparse in H.
  destruct (init_segments DID_URL_DID_PART_PATTERN DID_URL_RELATIVE_FRONT
              unicodedata_normalize_NFKC pattern_prefix pattern_no_delimiter
              _ _ H) as (parts & F & _ & _ & ->).
  rewrite F, unparse_value_parts.
  replace (did ++ unparse_path path ++ unparse_query query ++
           unparse_fragment fragment0)
    with ((did ++ unparse_path path ++ unparse_query query) ++
          unparse_fragment fragment0) by (now rewrite !app_assoc).
  pose proof (unparse_front_no_hash did path query Hd Hp) as N.
  unfold unparse_fragment, fragment_segment. destruct (truthy fragment0).
  - change ("#" ++ py_str fragment0) with (String "#" (py_str fragment0)).
    now rewrite (split_off_at _ _ _ N).
  - rewrite app_nil_r, (split_off_absent _ _ N). reflexivity.
Qed.

(** X9: composing and parsing again gives the query back.  When [unparse]
    succeeds on a DID and a path without [?] and [#], and the keys and the
    values of the mapping are ASCII texts, the keys distinct and no value
    empty, the query of the result is that mapping; it is absent when the
    [query] argument is [None] or empty. *)
Theorem unparse_query_roundtrip (did : string) (path0 : option string)
  (query0 : option dict) (fragment0 : pyobj) (v : DIDUrl) :
  unparse did path0 query0 fragment0 = Ok v ->
  str.has_char "#" did = false -> str.has_char "?" did = false ->
  str.has_char "#" (opt_get path0) = false ->
  str.has_char "?" (opt_get path0) = false ->
  (forall q, query0 = Some q ->
     NoDup (map fst q) /\
     forall k x, In (k, x) q ->
       all_chars is_ascii k = true /\ all_chars is_ascii x = true /\ x <> "") ->
  query v = match query0 with
            | Some q => if nonempty q then Some q else None
            | None => None
            end.
Proof.
  intros H Hd Qd Hp Qp HQ. unfold unparse in H.
  destruct (init_segments DID_URL_DID_PART_PATTERN DID_URL_RELATIVE_FRONT
              unicodedata_normalize_NFKC pattern_prefix pattern_no_delimiter
              _ _ H) as (parts & _ & Q & -> & _).
  rewrite Q, (unparse_query_segment _ _ _ _ Hd Qd Hp Qp).
  destruct query0 as [q|]; [|reflexivity].
  destruct (nonempty q) eqn:NE; [|reflexivity].
  destruct (HQ q eq_refl) as [ND HE].
  rewrite remove_unsafe_absent by (now apply urlencode_has_char).
  rewrite (urlencode_truthy _ NE), parse_qsl_urlencode, (dict_of_pairs_id _ ND).
  - reflexivity.
  - now destruct q.
  - intros k x I. destruct (HE _ _ I) as (Ak & Ax & Nx).
    repeat split; try assumption. now destruct x.
Qed.

(** [urlsplit] on a text that is empty or begins with [/], [?] or [#]
    and does not begin with two slashes: no scheme, no network location,
    and the three segments of the text. *)
Lemma urlsplit_fronted_exact (u : string) :
  fronted u = true -> str.startswith "//" (remove_unsafe u) = false ->
  urlsplit u =
  Ok (SplitResult.mk "" "" (path_segment (remove_unsafe u))
        (query_segment (remove_unsafe u)) (fragment_segment (remove_unsafe u))).
Proof.
  intros F S. unfold urlsplit. rewrite (fronted_lstrip _ F).
  apply fronted_remove_unsafe in F. revert F S.
  generalize (remove_unsafe u). intros u2 F S.
  rewrite (fronted_split_scheme _ F), S. cbn [bind].
  unfold path_segment, query_segment, fragment_segment.
  destruct (split_off "#" u2) as [url1 fragment]. cbn [fst snd].
  destruct (split_off "?" url1) as [url2 query]. reflexivity.
Qed.

Lemma urlparse_fronted_exact (u : string) :
  fronted u = true -> str.startswith "//" (remove_unsafe u) = false ->
  str.has_char ";" (path_segment (remove_unsafe u)) = false ->
  urlparse u =
  Ok (ParseResult.mk "" "" (path_segment (remove_unsafe u)) ""
        (query_segment (remove_unsafe u)) (fragment_segment (remove_unsafe u))).
Proof.
  intros F S P. unfold urlparse. rewrite (urlsplit_fronted_exact _ F S).
  cbn [bind]. now rewrite P, andb_false_r.
Qed.


(** X10: composing and parsing again gives the path back, with its leading
    slash.  When [unparse] succeeds, the DID that the pattern finds in the
    composed string is the [did] argument, the path holds none of [?], [#],
    [;], tab, carriage return and line feed, and the path written does not
    begin with two slashes, the path of the result is the path written:
    the [path] argument, with a slash in front when it had none, and
    nothing when the argument is [None] or empty. *)
Theorem unparse_path_roundtrip (did : string) (path0 : option string)
  (query0 : option dict) (fragment0 : pyobj) (v : DIDUrl) :
  unparse did path0 query0 fragment0 = Ok v ->
  DID_URL_DID_PART_PATTERN (unparse_value did path0 query0 fragment0) = Some did ->
  (forall c, In c ["?"; "#"; ";"; "009"; "013"; "010"]%char ->
             str.has_char c (opt_get path0) = false) ->
  str.startswith "//" (unparse_path path0) = false ->
  path v = or_None (unparse_path path0).
Proof.
  intros H HP HC S. unfold unparse in H. rewrite init_by_slicing, HP in H.
  destruct (str.contains did _); [discriminate|].
  rewrite unparse_value_parts, drop_app in H.
  assert (NC : forall c, In c ["?"; "#"; ";"; "009"; "013"; "010"]%char ->
                         str.has_char c (unparse_path path0) = false).
  { intros c I. apply unparse_path_has_char; [|now apply HC].
    cbn in I. intuition (subst; discriminate). }
  pose proof (unparse_tail_after_path query0 fragment0) as A.
  assert (R : remove_unsafe (unparse_path path0 ++ unparse_query query0 ++
                             unparse_fragment fragment0) =
              unparse_path path0 ++
              remove_unsafe (unparse_query query0 ++ unparse_fragment fragment0)).
  { rewrite remove_unsafe_app. f_equal.
    apply remove_unsafe_absent; apply NC; cbn; auto 10. }
  rewrite urlparse_fronted_exact in H.
  - cbn [bind] in H. injection H as <-. cbn [path ParseResult.path].
    rewrite R, path_segment_app; [reflexivity| | |exact A];
      apply NC; cbn; auto.
  - apply unparse_suffix_fronted.
  - rewrite R. now apply startswith2_app.
  - rewrite R, path_segment_app; [| | |exact A]; apply NC; cbn; auto.
Qed.

End Outcomes.

(** ** Composing with the patterns of [pydid.common] *)





(** ** Making a relative DID URL absolute *)

Lemma split1_absent_inv (c : ascii) (s : string) :
  str.split1 c s = None -> str.has_char c s = false.
Proof.
  induction s as [|a s IH]; simpl; [reflexivity|].
  destruct (Ascii.eqb a c); [discriminate|].
  destruct (str.split1 c s) as [[l r]|]; [discriminate|]. intros _. now apply IH.
Qed.

(** A text is what stands before the first [c], then [c] and what stands
    after it when [c] occurs. *)
Lemma split_off_join (c : ascii) (s : string) :
  s = fst (split_off c s) ++
      (if str.has_char c s then String c (snd (split_off c s)) else "").
Proof.
  unfold split_off. destruct (str.split1 c s) as [[l r]|] eqn:E; cbn [fst snd].
  - destruct (split1_some _ _ _ _ E) as [-> _].
    rewrite has_char_app. cbn [str.has_char].
    now rewrite Ascii.eqb_refl, orb_true_r.
  - now rewrite (split1_absent_inv _ _ E), app_nil_r.
Qed.

Lemma has_char_split_fst (c x : ascii) (s : string) :
  str.has_char c s = false -> str.has_char c (fst (split_off x s)) = false.
Proof.
  intros H. rewrite (split_off_join x s), has_char_app in H.
  now apply orb_false_iff in H as [H _].
Qed.

(** [unparse] writes a path that is empty or begins with a slash as it
    stands. *)
Lemma unparse_path_or_None (p : string) :
  p = "" \/ (exists w, p = String "/" w) -> unparse_path (or_None p) = p.
Proof. intros [->|[w ->]]; [reflexivity | now destruct w]. Qed.

Lemma unparse_fragment_or_None (f : string) :
  unparse_fragment (pyobj_of_opt (or_None f)) =
  if str_truthy f then "#" ++ f else "".
Proof. destruct f; reflexivity. Qed.

(** X13: making a relative DID URL absolute puts the DID in front of it.
    Let [s] be a string without DID that begins with [/] or [#], holds no
    [?], [;], tab, carriage return or line feed, does not begin with two
    slashes, and has a fragment that is not empty when it has a [#].  When
    [s] is parsed and the result made absolute with a DID, the text of the
    outcome is the DID followed by [s]. *)
Theorem as_absolute_prepends (PAT : string -> option string)
  (REL : string -> bool) (nfkc : string -> string)
  (s d0 : string) (v a : DIDUrl) :
  parse PAT REL nfkc (PyStr s) = Ok v ->
  PAT s = None -> fronted s = true ->
  (forall c, In c ["?"; ";"; "009"; "013"; "010"]%char ->
             str.has_char c s = false) ->
  str.startswith "//" s = false ->
  (str.has_char "#" s = true -> str_truthy (fragment_segment s) = true) ->
  as_absolute PAT REL nfkc v d0 = Ok a ->
  text a = d0 ++ s.
Proof.
  intros H HP F NC S HF HA.
  assert (R : remove_unsafe s = s)
    by (apply remove_unsafe_absent; apply NC; cbn; auto 10).
  assert (Q : str.has_char "?" (fst (split_off "#" s)) = false)
    by (apply has_char_split_fst, NC; cbn; auto).
  assert (P : path_segment s = fst (split_off "#" s))
    by (unfold path_segment; now rewrite (split_off_absent _ _ Q)).
  assert (QS : query_segment s = "")
    by (unfold query_segment; now rewrite (split_off_absent _ _ Q)).
  assert (J : s = fst (split_off "#" s) ++
                  (if str_truthy (fragment_segment s)
                   then "#" ++ fragment_segment s else "")).
  { pose proof (split_off_join "#" s) as J. unfold fragment_segment in *.
    destruct (str.has_char "#" s) eqn:E.
    - rewrite (HF eq_refl). exact J.
    - rewrite (split_off_absent _ _ E) in J |- *. exact J. }
  unfold parse in H. rewrite init_unfold, HP in H.
  destruct (REL s); [|discriminate].
  rewrite urlparse_fronted_exact in H.
  - rewrite R, QS in H. cbn [bind] in H. injection H as <-.
    unfold as_absolute, unparse in HA.
    cbn [path query fragment ParseResult.path ParseResult.query
         ParseResult.fragment str_truthy] in HA.
    destruct (init_ok PAT REL nfkc _ _ HA) as (_ & _ & _ & _ & -> & _).
    rewrite unparse_value_parts, unparse_fragment_or_None.
    rewrite unparse_path_or_None by (now apply path_segment_fronted).
    cbn [unparse_query append]. f_equal. rewrite P. symmetry. exact J.
  - exact F.
  - now rewrite R.
  - rewrite R, P. apply has_char_split_fst, NC. cbn; auto.
Qed.

(** ** The further properties on the strings of the documentation *)

Lemma parse_by_slicing_witness :
  pydid.parse (PyStr "did:example:123/some/path#frag") =
  Ok {| text := "did:example:123/some/path#frag";
        did := Some "did:example:123"; path := Some "/some/path";
        query := None; fragment := Some "frag" |}.
Proof.
  exact (parse_by_slicing common.DID_URL_DID_PART_PATTERN
           common.DID_URL_RELATIVE_FRONT NFKC_ascii common_pattern_prefix
           "did:example:123/some/path#frag").
Defined.

Lemma parsed_did_witness :
  did {| text := "did:example:123/some/path#frag";
         did := Some "did:example:123"; path := Some "/some/path";
         query := None; fragment := Some "frag" |} = Some "did:example:123" /\
  "did:example:123/some/path#frag" = "did:example:123" ++ "/some/path#frag" /\
  str.contains "did:example:123" "/some/path#frag" = false.
Proof.
  exact (parsed_did common.DID_URL_DID_PART_PATTERN
           common.DID_URL_RELATIVE_FRONT NFKC_ascii common_pattern_prefix
           "did:example:123/some/path#frag" _ eq_refl).
Defined.

Lemma parse_accepts_witness :
  exists v,
    pydid.parse (PyStr "did:example:123/some/path?query=test#fragment") = Ok v /\
    text v = "did:example:123/some/path?query=test#fragment" /\
    did v = Some "did:example:123" /\
    pydid.is_valid (PyStr "did:example:123/some/path?query=test#fragment")
    = Ok true.
Proof.
  exact (parse_accepts common.DID_URL_DID_PART_PATTERN
           common.DID_URL_RELATIVE_FRONT NFKC_ascii common_pattern_prefix
           "did:example:123/some/path?query=test#fragment"
           (conj eq_refl eq_refl)).
Defined.

Lemma parsed_query_keys_distinct_witness :
  NoDup (map fst [("a", "2"); ("b", "A c")]).
Proof.
  exact (parsed_query_keys_distinct common.DID_URL_DID_PART_PATTERN
           common.DID_URL_RELATIVE_FRONT NFKC_ascii
           "did:example:123?a=1&b=%41+c&a=2&d="
           {| text := "did:example:123?a=1&b=%41+c&a=2&d=";
              did := Some "did:example:123"; path := None;
              query := Some [("a", "2"); ("b", "A c")]; fragment := None |}
           [("a", "2"); ("b", "A c")] eq_refl eq_refl).
Defined.

Lemma parsed_query_values_nonempty_witness : "A c" <> "".
Proof.
  exact (parsed_query_values_nonempty common.DID_URL_DID_PART_PATTERN
           common.DID_URL_RELATIVE_FRONT NFKC_ascii
           "did:example:123?a=1&b=%41+c&a=2&d="
           {| text := "did:example:123?a=1&b=%41+c&a=2&d=";
              did := Some "did:example:123"; path := None;
              query := Some [("a", "2"); ("b", "A c")]; fragment := None |}
           [("a", "2"); ("b", "A c")] "b" "A c" eq_refl eq_refl
           (or_intror (or_introl eq_refl))).
Defined.

Lemma parsed_path_slash_witness :
  path {| text := "/some/path;x?query=test"; did := None;
          path := Some "/some/path"; query := Some [("query", "test")];
          fragment := None |} = None \/
  exists w,
    path {| text := "/some/path;x?query=test"; did := None;
            path := Some "/some/path"; query := Some [("query", "test")];
            fragment := None |} = Some (String "/" w).
Proof.
  exact (parsed_path_slash common.DID_URL_DID_PART_PATTERN
           common.DID_URL_RELATIVE_FRONT NFKC_ascii common_pattern_prefix
           "/some/path;x?query=test" _ eq_refl eq_refl).
Defined.

Lemma unparse_fragment_roundtrip_witness :
  fragment {| text := "did:example:123/some/path?query=test#frag";
              did := Some "did:example:123"; path := Some "/some/path";
              query := Some [("query", "test")]; fragment := Some "frag" |}
  = Some "frag".
Proof.
  exact (unparse_fragment_roundtrip common.DID_URL_DID_PART_PATTERN
           common.DID_URL_RELATIVE_FRONT NFKC_ascii common_pattern_prefix
           common_pattern_no_delimiter
           "did:example:123" (Some "some/path") (Some [("query", "test")])
           (PyStr "frag") _ eq_refl eq_refl eq_refl).
Defined.

Lemma unparse_query_roundtrip_witness :
  query {| text := "did:example:123/some/path?a+b=c%26d&query=test#frag";
           did := Some "did:example:123"; path := Some "/some/path";
           query := Some [("a b", "c&d"); ("query", "test")];
           fragment := Some "frag" |}
  = Some [("a b", "c&d"); ("query", "test")].
Proof.
  refine (unparse_query_roundtrip common.DID_URL_DID_PART_PATTERN
            common.DID_URL_RELATIVE_FRONT NFKC_ascii common_pattern_prefix
            common_pattern_no_delimiter
            "did:example:123" (Some "some/path")
            (Some [("a b", "c&d"); ("query", "test")])
            (PyStr "frag") _ eq_refl eq_refl eq_refl eq_refl eq_refl _).
  intros q E. injection E as <-. split.
  - repeat constructor; simpl; intuition discriminate.
  - intros k x [E|[E|[]]]; injection E as <- <-;
      repeat split; (reflexivity || discriminate).
Defined.

Lemma unparse_path_roundtrip_witness :
  path {| text := "did:example:123/some/path?query=test#frag";
          did := Some "did:example:123"; path := Some "/some/path";
          query := Some [("query", "test")]; fragment := Some "frag" |}
  = Some "/some/path".
Proof.
  refine (unparse_path_roundtrip common.DID_URL_DID_PART_PATTERN
            common.DID_URL_RELATIVE_FRONT NFKC_ascii common_pattern_prefix
            "did:example:123" (Some "some/path") (Some [("query", "test")])
            (PyStr "frag") _ eq_refl eq_refl _ eq_refl).
  intros c I. simpl in I.
  repeat (destruct I as [<-|I]; [reflexivity|]). destruct I.
Defined.


Lemma as_absolute_prepends_witness :
  text {| text := "did:example:123/some/path#frag";
          did := Some "did:example:123"; path := Some "/some/path";
          query := None; fragment := Some "frag" |}
  = "did:example:123" ++ "/some/path#frag".
Proof.
  refine (as_absolute_prepends common.DID_URL_DID_PART_PATTERN
            common.DID_URL_RELATIVE_FRONT NFKC_ascii
            "/some/path#frag" "did:example:123"
            {| text := "/some/path#frag"; did := None;
               path := Some "/some/path"; query := None;
               fragment := Some "frag" |} _
            eq_refl eq_refl eq_refl _ eq_refl (fun _ => eq_refl) eq_refl).
  intros c I. simpl in I.
  repeat (destruct I as [<-|I]; [reflexivity|]). destruct I.
Defined.

(** ** What the path never holds *)

Lemma split_off_fst_no_char (c : ascii) (s : string) :
  str.has_char c (fst (split_off c s)) = false.
Proof.
  unfold split_off. destruct (str.split1 c s) as [[l r]|] eqn:E; cbn [fst].
  - now destruct (split1_some _ _ _ _ E).
  - now apply split1_absent_inv.
Qed.

Lemma path_segment_no_delimiter (u : string) :
  str.has_char "?" (path_segment u) = false /\
  str.has_char "#" (path_segment u) = false.
Proof.
  unfold path_segment. split; [apply split_off_fst_no_char|].
  apply has_char_split_fst, split_off_fst_no_char.
Qed.

Lemma splitparams_has_char (c : ascii) (p : string) :
  str.has_char c p = false -> str.has_char c (fst (_splitparams p)) = false.
Proof.
  intros H. unfold _splitparams.
  destruct (rsplit1 "/" p) as [[before last]|] eqn:E.
  - destruct (str.split1 ";" last) as [[l r]|] eqn:E'; cbn [fst]; [|exact H].
    apply rsplit1_some in E. destruct (split1_some _ _ _ _ E') as [-> _].
    subst p. rewrite !has_char_app in *. cbn [str.has_char] in *.
    rewrite has_char_app in H.
    repeat match goal with
           | H : _ || _ = false |- _ => apply orb_false_iff in H as [? H]
           end.
    repeat match goal with H : _ = false |- _ => rewrite H; clear H end.
    reflexivity.
  - now apply has_char_split_fst.
Qed.

Lemma urlsplit_path (nfkc : string -> string) (u : string) (r : SplitResult.t) :
  urlsplit nfkc u = Ok r -> exists u4, SplitResult.path r = path_segment u4.
Proof.
  unfold urlsplit. destruct (split_scheme _) as [sch u3].
  destruct (str.startswith "//" u3).
  - destruct (_splitnetloc u3) as [netloc u4].
    match goal with |- context [if ?b then Raise _ else _] => destruct b end;
      cbn [bind]; [discriminate|].
    intros H. rewrite (urlsplit_tail_parts _ _ _ _ _ H). now exists u4.
  - cbn [bind]. intros H. rewrite (urlsplit_tail_parts _ _ _ _ _ H).
    now exists u3.
Qed.

Lemma urlparse_path_no_delimiter (nfkc : string -> string) (u : string)
  (parts : ParseResult.t) :
  urlparse nfkc u = Ok parts ->
  str.has_char "?" (ParseResult.path parts) = false /\
  str.has_char "#" (ParseResult.path parts) = false.
Proof.
  unfold urlparse. destruct (urlsplit nfkc u) as [r|] eqn:E; cbn [bind];
    [|discriminate].
  destruct (urlsplit_path _ _ _ E) as [u4 P]. destruct r as [sch nl p q f].
  cbn in P. subst p. destruct (path_segment_no_delimiter u4) as [Q H].
  match goal with |- context [if ?b then _ else _] => destruct b end.
  - pose proof (splitparams_has_char "?" _ Q) as Q'.
    pose proof (splitparams_has_char "#" _ H) as H'.
    destruct (_splitparams (path_segment u4)) as [p' params].
    intros X; injection X as <-. now split.
  - intros X; injection X as <-. now split.
Qed.

(** X14: the path of a parsed DIDUrl holds neither [?] nor [#], and is
    never the empty string. *)
Theorem parsed_path_no_delimiter (PAT : string -> option string)
  (REL : string -> bool) (nfkc : string -> string)
  (s : string) (v : DIDUrl) (p : string) :
  parse PAT REL nfkc (PyStr s) = Ok v -> path v = Some p ->
  p <> "" /\ str.has_char "?" p = false /\ str.has_char "#" p = false.
Proof.
  intros H P.
  destruct (init_ok PAT REL nfkc _ _ H) as (uc & parts & U & _ & _ & E & _).
  rewrite E in P. destruct (urlparse_path_no_delimiter _ _ _ U) as [Q Hh].
  destruct (ParseResult.path parts) as [|c w]; [discriminate|].
  injection P as <-. repeat split; [discriminate | exact Q | exact Hh].
Qed.

Lemma parsed_path_no_delimiter_witness :
  "/some/path" <> "" /\
  str.has_char "?" "/some/path" = false /\
  str.has_char "#" "/some/path" = false.
Proof.
  exact (parsed_path_no_delimiter common.DID_URL_DID_PART_PATTERN
           common.DID_URL_RELATIVE_FRONT NFKC_ascii
           "did:example:123/some/path?query=test#fragment"
           {| text := "did:example:123/some/path?query=test#fragment";
              did := Some "did:example:123"; path := Some "/some/path";
              query := Some [("query", "test")]; fragment := Some "fragment" |}
           "/some/path" eq_refl eq_refl).
Defined.

(** ** Composing a string in which the DID occurs again *)



(** ** The JSON schema hook *)

Lemma json_get_set (d : JsonSchemaValue) (k : string) (v : json) :
  json_get (json_set d k v) k = Some v.
Proof.
  induction d as [|[k' v'] d IH]; cbn [json_set json_get].
  - now rewrite String.eqb_refl.
  - destruct (String.eqb k' k) eqn:E; cbn [json_get]; now rewrite E.
Qed.

Lemma json_get_set_other (d : JsonSchemaValue) (k k0 : string) (v : json) :
  k0 <> k -> json_get (json_set d k v) k0 = json_get d k0.
Proof.
  intros N. induction d as [|[k' v'] d IH]; cbn [json_set json_get].
  - destruct (String.eqb_spec k k0) as [E|_]; [now elim N | reflexivity].
  - destruct (String.eqb_spec k' k) as [->|_]; cbn [json_get].
    + destruct (String.eqb_spec k k0) as [E|_]; [now elim N | reflexivity].
    + now rewrite IH.
Qed.

(** X16: the JSON schema hook returns the schema of the handler with the
    key [examples] set to a list of one string and every other key as the
    handler gave it; an exception of the handler leaves the hook.  The
    string given as example is accepted by [is_valid], and [parse] finds a
    DID, a path, a query and a fragment in it. *)
Theorem json_schema_examples (CoreSchema : Type) (core_schema : CoreSchema)
  (handler : CoreSchema -> result JsonSchemaValue) :
  (forall d, handler core_schema = Ok d ->
     exists d',
       __get_pydantic_json_schema__ core_schema handler = Ok d' /\
       (forall k, k <> "examples" -> json_get d' k = json_get d k) /\
       exists example,
         json_get d' "examples" = Some (JArray [JString example]) /\
         pydid.is_valid (PyStr example) = Ok true /\
         exists v,
           pydid.parse (PyStr example) = Ok v /\
           did v <> None /\ path v <> None /\ query v <> None /\
           fragment v <> None) /\
  (forall e, handler core_schema = Raise e ->
     __get_pydantic_json_schema__ core_schema handler = Raise e).
Proof.
  unfold __get_pydantic_json_schema__. split.
  - intros d ->. cbn [bind]. eexists. split; [reflexivity|]. split.
    + intros k N. now apply json_get_set_other.
    + eexists. split; [apply json_get_set|]. split; [reflexivity|].
      eexists. split; [reflexivity|]. repeat split; discriminate.
  - intros e ->. reflexivity.
Qed.
